(** * Key store: signing, verification and the verification cache

  A shallow embedding of [src/key-store.js] (the key manager of
  orbit-db together with [signMessage], [verifySignature] and the
  cached [verifyMessage]) and the properties its specification states.

  JavaScript values are modelled by the small universes the functions
  accept, exceptions by the [result] type, and the two mutable stores
  (the module-level verification cache and the key store's storage)
  by explicit state passing.  The libraries the file imports
  ([@libp2p/crypto], the storage back ends) appear as interfaces.

  Every function is [async]; a call is modelled as running from start
  to end, its [await]s in program order, and a rejected promise as a
  thrown exception.  A [Buffer] is read as the bytes it holds when it
  is read; the one place that keeps a caller's object, the verification
  cache, keeps it by reference, in a memory the caller can write to. *)

From Stdlib Require Import Strings.Byte Strings.Ascii NArith.
From stdpp Require Import base option list strings gmap.

Open Scope string_scope.

(** ** JavaScript values *)

Module JS.

(** What a string-typed argument can be at run time: a string, or one
    of the two absent values. Strict equality [===] on these values is
    plain equality. *)
Inductive prim : Type :=
| Undefined
| Null
| Str (s : string).

(** Exceptions: [new Error(msg)] thrown by the key store's own guards,
    the [TypeError]s of the runtime, and failures raised inside a
    library (crypto parsing, storage). *)
Inductive exn : Type :=
| Error (msg : string)
| TypeError (msg : string)
| LibraryError (msg : string).

Inductive result (A : Type) : Type :=
| Ok (a : A)
| Throw (e : exn).
Arguments Ok {A} a.
Arguments Throw {A} e.

(** Any value that is neither [undefined], [null], a string nor a
    [Buffer] (a number, a boolean, an array, a typed array, a plain
    object, ...), through what the functions of this file can observe
    of it: its truthiness, what [Buffer.from(v)] makes of it (bytes, as
    for an array, or an exception, as the [TypeError] for a number),
    what [v.toString()] returns or throws, and its bytes if it is a
    [Uint8Array], which [Buffer.compare] accepts. *)
Record other : Type := {
  other_truthy : bool;
  other_bytes : result (list byte);
  other_text : result string;
  other_array : option (list byte)
}.

(** Message data as a function sees them at one moment: a primitive as
    above, a [Buffer] with the bytes it holds, or any other value. *)
Inductive data : Type :=
| Prim (p : prim)
| Buf (bytes : list byte)
| Other (v : other).

Coercion Prim : prim >-> data.

#[global] Instance prim_eq_dec : EqDecision prim.
Proof. solve_decision. Defined.

#[global] Instance byte_eq_dec : EqDecision byte.
Proof. intros a b. destruct (Byte.byte_eq_dec a b); [left|right]; done. Defined.

#[global] Instance exn_eq_dec : EqDecision exn.
Proof. solve_decision. Defined.

#[global] Instance result_eq_dec {A} `{EqDecision A} : EqDecision (result A).
Proof. solve_decision. Defined.

#[global] Instance other_eq_dec : EqDecision other.
Proof. solve_decision. Defined.

#[global] Instance data_eq_dec : EqDecision data.
Proof. solve_decision. Defined.

Definition rbind {A B} (r : result A) (k : A → result B) : result B :=
  match r with
  | Ok a => k a
  | Throw e => Throw e
  end.

(** [try { x = body } catch (e) { }] around an assignment to a
    variable that already holds [dflt]. *)
Definition try_or {A} (dflt : A) (body : result A) : A :=
  match body with
  | Ok a => a
  | Throw _ => dflt
  end.

(** Truthiness, the test behind [!x] and [x || y]. *)
Definition truthy (p : prim) : bool :=
  match p with
  | Undefined | Null => false
  | Str s => negb (bool_decide (s = ""))
  end.

(** A [Buffer] is an object and always truthy, even when empty. *)
Definition truthy_data (d : data) : bool :=
  match d with
  | Prim p => truthy p
  | Buf _ => true
  | Other v => other_truthy v
  end.

Definition non_null (p : prim) : bool :=
  match p with
  | Undefined | Null => false
  | Str _ => true
  end.

Definition non_null_data (d : data) : bool :=
  match d with
  | Prim p => non_null p
  | Buf _ | Other _ => true
  end.

(** [Buffer.isBuffer(d)]; a [Uint8Array] that is not a [Buffer] is not
    one. *)
Definition isBuffer (d : data) : bool :=
  match d with
  | Buf _ => true
  | Prim _ | Other _ => false
  end.

(** The bytes of a value that is a [Uint8Array], as a [Buffer] is. *)
Definition binary (d : data) : option (list byte) :=
  match d with
  | Buf bytes => Some bytes
  | Other v => other_array v
  | Prim _ => None
  end.

(** [a === b] on primitives. *)
Definition strict_eq (a b : prim) : bool := bool_decide (a = b).

(** [x || y]. *)
Definition or_else (x y : prim) : prim := if truthy x then x else y.

End JS.
Import JS.

Notation "'attempt' x <- r ; k" := (rbind r (fun x => k))
(at level 10, x name, r at level 100, k at level 200).

(** ** Hexadecimal encoding of buffers *)

Module Hex.

Definition digit (n : N) : ascii :=
  match n with
  | 0 => "0" | 1 => "1" | 2 => "2" | 3 => "3" | 4 => "4" | 5 => "5"
  | 6 => "6" | 7 => "7" | 8 => "8" | 9 => "9" | 10 => "a" | 11 => "b"
  | 12 => "c" | 13 => "d" | 14 => "e" | _ => "f"
  end%N%char.

(** Value of a hexadecimal digit, either case; [None] for any other
    character. *)
Definition unhex (c : ascii) : option N :=
  let n := N_of_ascii c in
  if (48 <=? n)%N && (n <=? 57)%N then Some (n - 48)%N
  else if (97 <=? n)%N && (n <=? 102)%N then Some (n - 87)%N
  else if (65 <=? n)%N && (n <=? 70)%N then Some (n - 55)%N
  else None.

Definition byte_of_nibbles (hi lo : N) : byte :=
  default x00 (Byte.of_N (16 * hi + lo)).

(** [buf.toString('hex')]: two lowercase digits per byte. *)
Fixpoint encode (bs : list byte) : string :=
  match bs with
  | [] => ""
  | b :: rest =>
      String (digit (Byte.to_N b / 16))
        (String (digit (Byte.to_N b mod 16)) (encode rest))
  end.

(** [Buffer.from(s, 'hex')]: reads pairs of digits and stops at the
    first pair that is not hexadecimal; a trailing single character is
    dropped. It never throws. *)
Fixpoint decode (s : string) : list byte :=
  match s with
  | String c1 (String c2 rest) =>
      match unhex c1, unhex c2 with
      | Some hi, Some lo => byte_of_nibbles hi lo :: decode rest
      | _, _ => []
      end
  | _ => []
  end.

End Hex.

(** ** Buffers and strings *)

(** The text encoding behind [Buffer.from(string)] and
    [buffer.toString()] (UTF-8 in the runtime). Nothing below depends
    on more than its being a pair of functions. *)
Class TextCodec : Type := {
  utf8_encode : string → list byte;
  utf8_decode : list byte → string
}.

Module Buffer.

(** [Buffer.from(data)] as used to normalise message data: the bytes of
    a string; the code calls it only when [data] is not a buffer
    already. The absent values are rejected with a [TypeError]; any
    other value gives what it gives. *)
Definition from {codec : TextCodec} (d : data) : result (list byte) :=
  match d with
  | Buf bytes => Ok bytes
  | Prim (Str s) => Ok (utf8_encode s)
  | Prim _ =>
      Throw (TypeError "The first argument must be of type string or an instance of Buffer")
  | Other v => other_bytes v
  end.

(** [Buffer.from(s, 'hex')] on a string-typed argument. *)
Definition from_hex (p : prim) : result (list byte) :=
  match p with
  | Str s => Ok (Hex.decode s)
  | _ => Throw (TypeError "The first argument must be of type string or an instance of Buffer")
  end.

(** [x.toString()]: a property access, so a [TypeError] on [undefined]
    and [null]. *)
Definition toString {codec : TextCodec} (d : data) : result string :=
  match d with
  | Buf bytes => Ok (utf8_decode bytes)
  | Prim (Str s) => Ok s
  | Prim _ => Throw (TypeError "Cannot read properties of undefined (reading 'toString')")
  | Other v => other_text v
  end.

Fixpoint compare_bytes (a b : list byte) : Z :=
  match a, b with
  | [], [] => 0
  | [], _ :: _ => -1
  | _ :: _, [] => 1
  | x :: a', y :: b' =>
      match N.compare (Byte.to_N x) (Byte.to_N y) with
      | Eq => compare_bytes a' b'
      | Lt => -1
      | Gt => 1
      end
  end%Z.

(** [Buffer.compare(a, b)]: lexicographic order of the bytes as -1, 0
    or 1; both arguments have to be buffers or [Uint8Array]s, anything
    else is a [TypeError]. *)
Definition compare (a b : data) : result Z :=
  match binary a, binary b with
  | Some x, Some y => Ok (compare_bytes x y)
  | _, _ => Throw (TypeError "The buf1, buf2 arguments must be one of type Buffer or Uint8Array")
  end.

End Buffer.

(** ** The LRU container *)

Module LRU.

Section Container.
Context {K V : Type} `{EqDecision K}.

(** Modelled from the spec: [src/storage/lru.js], the bounded
    least-recently-used container behind both caches. A fixed capacity
    and the entries in order of recency, the most recently used
    first. *)
Record t : Type := make {
  size : nat;
  entries : list (K * V)
}.

(** Modelled from the spec: [LRUStorage({ size })] of
    [src/storage/lru.js], an empty container of the given capacity. *)
Definition create (capacity : nat) : t :=
  {| size := capacity; entries := [] |}.

Fixpoint find (k : K) (l : list (K * V)) : option V :=
  match l with
  | [] => None
  | (k', v) :: rest => if decide (k = k') then Some v else find k rest
  end.

Fixpoint remove (k : K) (l : list (K * V)) : list (K * V) :=
  match l with
  | [] => []
  | (k', v) :: rest =>
      if decide (k = k') then remove k rest else (k', v) :: remove k rest
  end.

(** Modelled from the spec: [get] of [src/storage/lru.js]. Returns the
    value stored under the key, or nothing; a hit promotes the entry's
    recency. *)
Definition get (k : K) (c : t) : option V * t :=
  match find k (entries c) with
  | None => (None, c)
  | Some v => (Some v, {| size := size c; entries := (k, v) :: remove k (entries c) |})
  end.

(** Modelled from the spec: [put] of [src/storage/lru.js]. The entry
    becomes the most recent one, replacing any value under the same
    key; beyond capacity the least recently used entries are evicted. *)
Definition put (k : K) (v : V) (c : t) : t :=
  {| size := size c; entries := take (size c) ((k, v) :: remove k (entries c)) |}.

(** Modelled from the spec: [clear] of [src/storage/lru.js]. *)
Definition clear (c : t) : t := create (size c).

End Container.

Arguments t : clear implicits.

End LRU.

(** ** The cryptography library *)

(** Key handles of [@libp2p/crypto]: a private key carries its bytes
    and the public key the library derived from them. Two handles are
    structurally equal when these fields are. *)
Record PrivateKey : Type := {
  private_bytes : list byte;
  public_bytes : list byte
}.

Record PublicKey : Type := {
  key_bytes : list byte
}.

#[global] Instance PrivateKey_eq_dec : EqDecision PrivateKey.
Proof. solve_decision. Defined.

(** [key.marshal()] and [key.public.marshal()]. *)
Definition marshal (k : PrivateKey) : list byte := private_bytes k.
Definition public (k : PrivateKey) : PublicKey := {| key_bytes := public_bytes k |}.
Definition marshal_public (p : PublicKey) : list byte := key_bytes p.

(** The functions of [@libp2p/crypto] the key store calls, fixed to
    secp256k1. Key generation draws on a source of randomness, threaded
    as [entropy]. Parsing and verification can throw. *)
Class Crypto : Type := {
  entropy : Type;
  (** [crypto.keys.generateKeyPair('secp256k1')] *)
  generateKeyPair : entropy → PrivateKey * entropy;
  (** [pair.bytes], the serialised private-key record *)
  key_record : PrivateKey → list byte;
  (** [crypto.keys.unmarshalPrivateKey] *)
  unmarshalPrivateKey : list byte → result PrivateKey;
  (** [unmarshalSecp256k1PrivateKey], bound to [unmarshal] *)
  unmarshal : list byte → result PrivateKey;
  (** [unmarshalSecp256k1PublicKey], bound to [unmarshalPubKey] *)
  unmarshalPubKey : list byte → result PublicKey;
  (** [key.sign(data)] *)
  sign : PrivateKey → list byte → result (list byte);
  (** [key.verify(msg, sig)] *)
  verify : PublicKey → list byte → list byte → result bool
}.

(** ** Signing and verification *)

Section SignVerify.
Context {codec : TextCodec} {lib : Crypto}.

(** The two statements inside the [try] of [verifySignature]: the
    public key is parsed from its hexadecimal form and asked to verify
    the message against the signature, itself parsed from hexadecimal.
    Each step may throw. *)
Definition guarded_check (signature publicKey : prim) (msg : list byte) : result bool :=
  let isValid := λ key msg sig, verify key msg sig in
  attempt keyBytes <- Buffer.from_hex publicKey;
  attempt pubKey <- unmarshalPubKey keyBytes;
  attempt sigBytes <- Buffer.from_hex signature;
  isValid pubKey msg sigBytes.

(** [verifySignature]: three guards, the data normalised to bytes, then
    the library's check inside a [try] whose handler is empty, so that
    every failure in it leaves [res] at [false]. *)
Definition verifySignature (signature publicKey : prim) (data : data) : result bool :=
  if negb (truthy signature) then Throw (Error "No signature given")
  else if negb (truthy publicKey) then Throw (Error "Given publicKey was undefined")
  else if negb (truthy_data data) then Throw (Error "Given input data was undefined")
  else
    (* if (!Buffer.isBuffer(data)) data = Buffer.from(data): a buffer
       keeps its bytes, a string is encoded *)
    attempt msg <- Buffer.from data;
    let res := try_or false (guarded_check signature publicKey msg) in
    Ok res.

(** [signMessage]; an absent key is [None]. The result is the
    signature in hexadecimal. *)
Definition signMessage (key : option PrivateKey) (data : data) : result string :=
  match key with
  | None => Throw (Error "No signing key given")
  | Some key =>
      if negb (truthy_data data) then Throw (Error "Given input data was undefined")
      else
        attempt msg <- Buffer.from data;
        attempt sig <- sign key msg;
        Ok (Hex.encode sig)
  end.

(** *** The verification cache *)

(** Objects the caller of [verifyMessage] keeps a reference to live in
    a memory that the caller may write to between calls: a [Buffer]
    with its bytes, or any other object. *)
Definition loc : Type := nat.

Inductive object : Type :=
| BufferObject (bytes : list byte)
| OtherObject (v : other).

Abbreviation memory := (gmap loc object).

Definition contents (o : object) : data :=
  match o with
  | BufferObject bytes => Buf bytes
  | OtherObject v => Other v
  end.

(** What is passed as [data]: a value nobody writes to (a primitive,
    or an object the caller leaves alone), given by what it is, or an
    object the caller holds on to, given by its place in memory. *)
Inductive argument : Type :=
| Direct (d : data)
| Shared (l : loc).

Coercion Direct : data >-> argument.

(** The data an argument stands for at the moment: an object in memory
    is read as it is now (a place that holds nothing reads as
    [undefined]). *)
Definition view (m : memory) (a : argument) : data :=
  match a with
  | Direct d => d
  | Shared l =>
      match m !! l with
      | Some o => contents o
      | None => Prim Undefined
      end
  end.

(** The value [{ publicKey, data }] stored under a signature; [data] is
    the caller's object itself, not a copy of it. *)
Record entry : Type := {
  cached_publicKey : prim;
  cached_data : argument
}.

(** One run of [verifySignature] made on behalf of [verifyMessage]:
    its arguments, the data as they were at that moment, and what came
    back. *)
Record check : Type := {
  checked_signature : prim;
  checked_publicKey : prim;
  checked_argument : argument;
  checked_data : data;
  outcome : result bool
}.

(** The module's state: [verifiedCache], the memory its entries may
    point into, and a ghost record of the cryptographic checks made so
    far (oldest first), kept for stating what was and was not
    verified. *)
Record vstate : Type := {
  verifiedCache : LRU.t prim entry;
  checks : list check;
  heap : memory
}.

(** [const verifiedCache = await LRUStorage({ size: 1000 })], with the
    caller's objects as they are at that time. *)
Definition start (m : memory) : vstate :=
  {| verifiedCache := LRU.create 1000; checks := []; heap := m |}.

Definition initial : vstate := start ∅.

(** The local [compare] of the cache-hit branch. *)
Definition compare (cached data : data) : result bool :=
  if isBuffer data
  then attempt c <- Buffer.compare cached data; Ok (c =? 0)%Z
  else attempt a <- Buffer.toString cached;
       attempt b <- Buffer.toString data;
       Ok (bool_decide (a = b)).

(** [verifyMessage]: result and state after the call. The call reads
    the memory and does not write to it. *)
Definition verifyMessage (signature publicKey : prim) (data : argument) (s : vstate)
  : result bool * vstate :=
  let (cached, cache) := LRU.get signature (verifiedCache s) in
  match cached with
  | None =>
      let seen := view (heap s) data in
      let verified := verifySignature signature publicKey seen in
      let log := (checks s ++ [ {| checked_signature := signature;
                                   checked_publicKey := publicKey;
                                   checked_argument := data;
                                   checked_data := seen;
                                   outcome := verified |} ])%list in
      match verified with
      | Throw e => (Throw e, {| verifiedCache := cache; checks := log; heap := heap s |})
      | Ok true =>
          (Ok true,
           {| verifiedCache :=
                LRU.put signature
                  {| cached_publicKey := publicKey; cached_data := data |} cache;
              checks := log;
              heap := heap s |})
      | Ok false => (Ok false, {| verifiedCache := cache; checks := log; heap := heap s |})
      end
  | Some cached =>
      (* cached.publicKey === publicKey && compare(cached.data, data) *)
      let res :=
        if strict_eq (cached_publicKey cached) publicKey
        then compare (view (heap s) (cached_data cached)) (view (heap s) data)
        else Ok false in
      (res, {| verifiedCache := cache; checks := checks s; heap := heap s |})
  end.

(** What the caller can do to the memory between two calls: create an
    object, write other bytes into a [Buffer] (its length is fixed), or
    change another object. *)
Inductive caller_step (m : memory) : memory → Prop :=
| caller_creates l o :
    m !! l = None → caller_step m (<[l := o]> m)
| caller_writes l bytes bytes' :
    m !! l = Some (BufferObject bytes) → length bytes' = length bytes →
    caller_step m (<[l := BufferObject bytes']> m)
| caller_changes l v v' :
    m !! l = Some (OtherObject v) →
    caller_step m (<[l := OtherObject v']> m).

(** The states the module can be in: the initial one and every state
    some sequence of [verifyMessage] calls leads to, the caller acting
    on its objects in between. Nothing else writes to [verifiedCache],
    which the module does not export. *)
Inductive reachable : vstate → Prop :=
| reachable_initial : reachable initial
| reachable_call s signature publicKey data :
    reachable s → reachable (verifyMessage signature publicKey data s).2
| reachable_caller s m :
    reachable s → caller_step (heap s) m →
    reachable {| verifiedCache := verifiedCache s; checks := checks s; heap := m |}.

(** The states reached by [verifyMessage] calls alone, from whatever
    objects there are at the start: the caller writes to none of
    them. *)
Inductive undisturbed : vstate → Prop :=
| undisturbed_start m : undisturbed (start m)
| undisturbed_call s signature publicKey data :
    undisturbed s → undisturbed (verifyMessage signature publicKey data s).2.

(** The comparison of cached and supplied data in the words of the
    specification: byte for byte if the supplied data is binary, by
    string form otherwise. *)
Definition same_data (cached supplied : data) : Prop :=
  match supplied with
  | Buf bytes => binary cached = Some bytes
  | Prim _ | Other _ =>
      ∃ text, Buffer.toString cached = Ok text ∧ Buffer.toString supplied = Ok text
  end.

End SignVerify.

(** ** Storage *)

(** What [storage.get] hands back: [undefined] when there is no record,
    [null], the stored bytes, or, from a storage that holds something
    else, any other value, given by its truthiness and by what the
    library's [unmarshal] makes of it. *)
Inductive stored : Type :=
| Absent
| NullValue
| Bytes (value : list byte)
| Foreign (truthy : bool) (loads : result PrivateKey).

(** [storedKey !== undefined && storedKey !== null] *)
Definition stored_present (v : stored) : bool :=
  match v with
  | Absent | NullValue => false
  | Bytes _ | Foreign _ _ => true
  end.

(** The truthiness of a stored value, the test behind [!storedKey];
    bytes are an object. *)
Definition stored_truthy (v : stored) : bool :=
  match v with
  | Absent | NullValue => false
  | Bytes _ => true
  | Foreign truthy _ => truthy
  end.

(** The storage a key store is built on ([options.storage]): any
    object with [get] and [put]. Both may change the storage and both
    may throw. *)
Class Storage : Type := {
  store : Type;
  storage_get : string → store → result stored * store;
  storage_put : string → list byte → store → result () * store
}.

Module ComposedStorage.

(** Modelled from the spec: [src/storage/composed.js] over
    [src/storage/lru.js] and [src/storage/level.js]; the cache tier in
    front of the persistent tier. *)
Record t : Type := {
  cache_tier : LRU.t string (list byte);
  persistent_tier : gmap string (list byte)
}.

(** Modelled from the spec: the default storage of [KeyStore],
    [ComposedStorage(LRUStorage({ size: 1000 }), LevelStorage({ path }))],
    over the records already on disk. *)
Definition open (disk : gmap string (list byte)) : t :=
  {| cache_tier := LRU.create 1000; persistent_tier := disk |}.

(** Modelled from the spec: [get] of [src/storage/composed.js]. The
    cache tier first; on a miss the persistent tier, whose value, if
    any, is put in the cache tier before it is returned. *)
Definition get (k : string) (s : t) : result stored * t :=
  match LRU.get k (cache_tier s) with
  | (Some v, cache) =>
      (Ok (Bytes v), {| cache_tier := cache; persistent_tier := persistent_tier s |})
  | (None, _) =>
      match persistent_tier s !! k with
      | Some v =>
          (Ok (Bytes v),
           {| cache_tier := LRU.put k v (cache_tier s);
              persistent_tier := persistent_tier s |})
      | None => (Ok Absent, s)
      end
  end.

(** Modelled from the spec: [put] of [src/storage/composed.js]. The
    persistent tier is written first, then the cache tier. *)
Definition put (k : string) (v : list byte) (s : t) : result () * t :=
  (Ok (),
   {| cache_tier := LRU.put k v (cache_tier s);
      persistent_tier := <[k := v]> (persistent_tier s) |}).

Definition storage : Storage :=
  {| store := t; storage_get := get; storage_put := put |}.

End ComposedStorage.

(** ** The key store *)

Section KeyStore.
Context {lib : Crypto} {backing : Storage}.

(** A call the key store made on its storage. *)
Inductive storage_op : Type :=
| Get (key : string)
| Put (key : string) (value : list byte).

(** The state a [KeyStore] instance works on: its [storage], the
    randomness key generation draws on, what was written with
    [console.error], and a ghost trace of the storage calls made
    (oldest first). *)
Record kstate : Type := {
  storage : store;
  random : entropy;
  console : list string;
  ops : list storage_op
}.

(** Computations over the key store's state that may throw. *)
Definition M (A : Type) : Type := kstate → result A * kstate.

Definition ret {A} (a : A) : M A := λ s, (Ok a, s).
Definition throw {A} (e : exn) : M A := λ s, (Throw e, s).
Definition bind {A B} (m : M A) (k : A → M B) : M B :=
  λ s, match m s with
       | (Ok a, s') => k a s'
       | (Throw e, s') => (Throw e, s')
       end.

(** [try { ... } catch (e) { handler }] *)
Definition catch {A} (m : M A) (handler : exn → M A) : M A :=
  λ s, match m s with
       | (Ok a, s') => (Ok a, s')
       | (Throw e, s') => handler e s'
       end.

Definition lift {A} (r : result A) : M A := λ s, (r, s).

Notation "'do' x <- m ; k" := (bind m (fun x => k))
  (at level 10, x name, m at level 100, k at level 200).

(** [await storage.get(key)] *)
Definition get (key : string) : M stored :=
  λ s, let (r, st) := storage_get key (storage s) in
       (r, {| storage := st; random := random s; console := console s;
              ops := (ops s ++ [Get key])%list |}).

(** [await storage.put(key, value)] *)
Definition put (key : string) (value : list byte) : M () :=
  λ s, let (r, st) := storage_put key value (storage s) in
       (r, {| storage := st; random := random s; console := console s;
              ops := (ops s ++ [Put key value])%list |}).

(** [console.error(line)] *)
Definition console_error (line : string) : M () :=
  λ s, (Ok (), {| storage := storage s; random := random s;
                  console := (console s ++ [line])%list; ops := ops s |}).

(** [await crypto.keys.generateKeyPair('secp256k1')] *)
Definition generate : M PrivateKey :=
  λ s, let (pair, r) := generateKeyPair (random s) in
       (Ok pair, {| storage := storage s; random := r; console := console s;
                    ops := ops s |}).

(** ['private_' + id]; string concatenation, which spells out the
    absent values. *)
Definition private_key_of (id : prim) : string :=
  "private_" ++
  match id with
  | Str s => s
  | Undefined => "undefined"
  | Null => "null"
  end.

Arguments private_key_of : simpl never.

Definition hasKey (id : prim) : M bool :=
  if negb (truthy id) then throw (Error "id needed to check a key")
  else
    catch
      (do storedKey <- get (private_key_of id);
       ret (stored_present storedKey))
      (λ _, do _ <- console_error "Error: ENOENT: no such file or directory";
            ret false).

(** The object [{ publicKey, privateKey }] handed to [addKey]. *)
Record key_material : Type := {
  publicKey : list byte;
  privateKey : list byte
}.

(** [addKey]: only the private key is stored. *)
Definition addKey (id : prim) (key : key_material) : M () :=
  put (private_key_of id) (privateKey key).

Definition createKey (id : prim) : M PrivateKey :=
  if negb (truthy id) then throw (Error "id needed to create a key")
  else
    do pair <- generate;
    do keys <- lift (unmarshalPrivateKey (key_record pair));
    let pubKey := marshal_public (public keys) in
    let key := {| publicKey := pubKey; privateKey := marshal keys |} in
    do _ <- addKey id key;
    ret keys.

(** [getKey]; the result [None] is [undefined]. *)
Definition getKey (id : prim) : M (option PrivateKey) :=
  if negb (truthy id) then throw (Error "id needed to get a key")
  else
    do storedKey <- catch (get (private_key_of id)) (λ _, ret Absent);
    if negb (stored_truthy storedKey) then ret None
    else
      match storedKey with
      | Bytes bytes => do key <- lift (unmarshal bytes); ret (Some key)
      | Foreign _ loads => do key <- lift loads; ret (Some key)
      | Absent | NullValue => ret None
      end.

(** [formats.indexOf(format)] with [-1] for a value not in the array. *)
Fixpoint indexOf (x : prim) (l : list prim) : Z :=
  match l with
  | [] => -1
  | y :: rest =>
      if strict_eq y x then 0
      else let i := indexOf x rest in if (i =? -1)%Z then -1 else (i + 1)%Z
  end%Z.

(** [getPublic(keys, options)]. [format] is [options.format], which is
    [Undefined] when no options or no format are given; an absent
    [keys] is [None]. The result is a buffer or a string. *)
Definition getPublic (keys : option PrivateKey) (format : prim) : result data :=
  let formats := [Str "hex"; Str "buffer"] in
  let format := or_else format (Str "hex") in
  if (indexOf format formats =? -1)%Z
  then Throw (Error "Supported formats are `hex` and `buffer`")
  else
    match keys with
    | None => Throw (TypeError "Cannot read properties of undefined (reading 'public')")
    | Some keys =>
        let pubKey := marshal_public (public keys) in
        if strict_eq format (Str "buffer")
        then Ok (Buf pubKey)
        else Ok (Prim (Str (Hex.encode pubKey)))
    end.

End KeyStore.

(** ** What is assumed of the libraries *)

(** A key handle as the library builds it from private-key bytes: the
    handle is what [unmarshal] returns for its own private bytes, so
    its public key is the one derived from them. *)
Definition genuine {lib : Crypto} (k : PrivateKey) : Prop :=
  unmarshal (marshal k) = Ok k.

(** The contract of the cryptography library used by the round-trip
    properties: generated keys are genuine and survive serialisation,
    and a genuine key's signature over a message, which like its public
    key is not empty, verifies under that public key. *)
Record CryptoLaws {lib : Crypto} : Prop := {
  generated_genuine : ∀ r, genuine (generateKeyPair r).1;
  record_roundtrip : ∀ k, genuine k → unmarshalPrivateKey (key_record k) = Ok k;
  public_nonempty : ∀ k, genuine k → public_bytes k ≠ [];
  sign_nonempty : ∀ k msg, genuine k → ∃ sig, sign k msg = Ok sig ∧ sig ≠ [];
  sign_verify : ∀ k msg sig,
    genuine k → sign k msg = Ok sig →
    ∃ pk, unmarshalPubKey (public_bytes k) = Ok pk ∧ verify pk msg sig = Ok true
}.

(** A storage that works: writes succeed, a read returns what was last
    written under the key, and reading twice gives the same answer. *)
Record StorageLaws {backing : Storage} : Prop := {
  put_succeeds : ∀ k v st, (storage_put k v st).1 = Ok ();
  get_after_put : ∀ k v st, (storage_get k (storage_put k v st).2).1 = Ok (Bytes v);
  get_repeatable : ∀ k st, (storage_get k (storage_get k st).2).1 = (storage_get k st).1
}.

(** ** Stand-ins for the libraries

    Small executable implementations of the interfaces, used to run the
    model on concrete inputs and to show that the assumptions above can
    be met. They are not secp256k1. *)

Module Sample.

Definition codec : TextCodec :=
  {| utf8_encode := String.list_byte_of_string;
     utf8_decode := String.string_of_list_byte |}.

Definition load (bytes : list byte) : result PrivateKey :=
  match bytes with
  | [] => Throw (LibraryError "Invalid private key")
  | _ => Ok {| private_bytes := bytes; public_bytes := x02 :: bytes |}
  end.

Definition load_record (bytes : list byte) : result PrivateKey :=
  match bytes with
  | x08 :: rest => load rest
  | _ => Throw (LibraryError "Invalid record")
  end.

Definition load_public (bytes : list byte) : result PublicKey :=
  match bytes with
  | x02 :: _ :: _ => Ok {| key_bytes := bytes |}
  | _ => Throw (LibraryError "Invalid public key")
  end.

Definition tag (pub msg : list byte) : list byte := (x30 :: pub ++ msg)%list.

Definition check (p : PublicKey) (msg sig : list byte) : result bool :=
  match sig with
  | [] => Throw (LibraryError "Signature length wrong")
  | _ => Ok (bool_decide (sig = tag (key_bytes p) msg))
  end.

Definition crypto : Crypto :=
  {| entropy := nat;
     generateKeyPair := λ n,
       ({| private_bytes := replicate (S n) x2a;
           public_bytes := x02 :: replicate (S n) x2a |}, S n);
     key_record := λ k, x08 :: private_bytes k;
     unmarshalPrivateKey := load_record;
     unmarshal := load;
     unmarshalPubKey := load_public;
     sign := λ k msg, Ok (tag (public_bytes k) msg);
     verify := check |}.

(** A storage whose reads fail. *)
Definition broken : Storage :=
  {| store := ();
     storage_get := λ _ st, (Throw (LibraryError "ENOENT: no such file or directory"), st);
     storage_put := λ _ _ st, (Ok (), st) |}.

(** A fresh key store over the default storage and an empty disk. *)
Definition fresh : @kstate crypto ComposedStorage.storage :=
  @Build_kstate crypto ComposedStorage.storage (ComposedStorage.open ∅) 0 [] [].

(** A key store whose storage cannot be read. *)
Definition unreadable : @kstate crypto broken :=
  @Build_kstate crypto broken () 0 [] [].

(** The first key the stand-in library generates, its public key in
    hexadecimal, two messages and the signatures of the key over
    them. *)
Definition key : PrivateKey :=
  {| private_bytes := [x2a]; public_bytes := [x02; x2a] |}.
Definition pub : string := "022a".
Definition message : data := Prim (Str "data data data").
Definition signature : string := "30022a6461746120646174612064617461".
Definition other_message : data := Prim (Str "other").
Definition other_signature : string := "30022a6f74686572".

(** The key store after [createKey('userA')]. *)
Definition created : @kstate crypto ComposedStorage.storage :=
  (@createKey crypto ComposedStorage.storage (Str "userA") fresh).2.

(** The verification cache after the first message was verified, and
    after the second one was verified too. *)
Definition verified_once : vstate :=
  (@verifyMessage codec crypto (Str signature) (Str pub) message initial).2.
Definition verified_twice : vstate :=
  (@verifyMessage codec crypto (Str other_signature) (Str pub) other_message
     verified_once).2.

End Sample.

(** ** Further notions used by the properties of the whole file *)

(** Strings made of the digits [buf.toString('hex')] writes. *)
Definition lowercase_hex_digit (c : ascii) : bool :=
  let n := N_of_ascii c in
  ((48 <=? n)%N && (n <=? 57)%N) || ((97 <=? n)%N && (n <=? 102)%N).

Fixpoint lowercase_hex (s : string) : bool :=
  match s with
  | EmptyString => true
  | String c rest => lowercase_hex_digit c && lowercase_hex rest
  end.

(** Data that are a string or a [Buffer]. *)
Definition plain_data (d : data) : bool :=
  match d with
  | Prim (Str _) | Buf _ => true
  | Prim _ | Other _ => false
  end.

(** A storage on which writing under one key leaves what is read under
    every other key as it was. *)
Record StorageFrame {backing : Storage} : Prop := {
  put_frame : ∀ k k' v st,
    k ≠ k' → (storage_get k' (storage_put k v st).2).1 = (storage_get k' st).1
}.

(** More stand-ins: a storage that is a plain persistent map, as when a
    key store is given the persistent tier alone as [options.storage],
    one whose writes fail, and a library that cannot load the keys it
    generates. *)
Module Fixture.

Definition plain : Storage :=
  {| store := gmap string (list byte);
     storage_get := λ k m,
       (Ok (match m !! k with Some v => Bytes v | None => Absent end), m);
     storage_put := λ k v m, (Ok (), <[k := v]> m) |}.

Definition read_only : Storage :=
  {| store := gmap string (list byte);
     storage_get := λ k m,
       (Ok (match m !! k with Some v => Bytes v | None => Absent end), m);
     storage_put := λ _ _ m, (Throw (LibraryError "EROFS: read-only file system"), m) |}.

Definition faulty_crypto : Crypto :=
  {| entropy := nat;
     generateKeyPair := @generateKeyPair Sample.crypto;
     key_record := @key_record Sample.crypto;
     unmarshalPrivateKey := λ _, Throw (LibraryError "Invalid record");
     unmarshal := @unmarshal Sample.crypto;
     unmarshalPubKey := @unmarshalPubKey Sample.crypto;
     sign := @sign Sample.crypto;
     verify := @verify Sample.crypto |}.

(** Key stores over these, with nothing stored, and one holding a
    record that is not a private key (no bytes at all). *)
Definition empty_plain : @kstate Sample.crypto plain :=
  @Build_kstate Sample.crypto plain ∅ 0 [] [].

Definition empty_read_only : @kstate Sample.crypto read_only :=
  @Build_kstate Sample.crypto read_only ∅ 0 [] [].

Definition empty_faulty : @kstate faulty_crypto plain :=
  @Build_kstate faulty_crypto plain ∅ 0 [] [].

Definition corrupt : @kstate Sample.crypto plain :=
  @Build_kstate Sample.crypto plain {[ "private_userA" := [] ]} 0 [] [].

(** The stand-in public key spelled in upper case, and a signature
    that does not verify. *)
Definition pub_upper : string := "022A".
Definition bad_signature : string := "xxxxxx".

(** The number 5 as data: truthy, with a string form, and nothing
    [Buffer.from] accepts. *)
Definition five : other :=
  {| other_truthy := true;
     other_bytes := Throw (TypeError "The first argument must be of type string or an instance of Buffer, ArrayBuffer, or Array or an Array-like Object. Received type number (5)");
     other_text := Ok "5";
     other_array := None |}.

(** A [Buffer] the caller keeps, holding the bytes of the first
    message; the cache before and after the message is verified
    through that [Buffer]; and the cache after the caller has then
    written other bytes into it. *)
Definition message_bytes : list byte := @utf8_encode Sample.codec "data data data".
Definition forged_bytes : list byte := @utf8_encode Sample.codec "evil evil evil".

Definition kept : vstate :=
  {| verifiedCache := verifiedCache initial; checks := checks initial;
     heap := <[0 := BufferObject message_bytes]> (heap initial) |}.

Definition verified_kept : vstate :=
  (@verifyMessage Sample.codec Sample.crypto (Str Sample.signature) (Str Sample.pub)
     (Shared 0) kept).2.

Definition overwritten : vstate :=
  {| verifiedCache := verifiedCache verified_kept; checks := checks verified_kept;
     heap := <[0 := BufferObject forged_bytes]> (heap verified_kept) |}.

(** A key store in which ['userB'] has a key already. *)
Definition with_userB : @kstate Sample.crypto plain :=
  (@createKey Sample.crypto plain (Str "userB") empty_plain).2.

(** A storage that holds the empty string under every key, and a key
    store over it. *)
Definition blank : Storage :=
  {| store := ();
     storage_get := λ _ st,
       (Ok (Foreign false (Throw (LibraryError "Expected Uint8Array"))), st);
     storage_put := λ _ _ st, (Ok (), st) |}.

Definition over_blank : @kstate Sample.crypto blank :=
  @Build_kstate Sample.crypto blank () 0 [] [].

End Fixture.

(** * Properties *)

(** ** Hexadecimal encoding *)

Lemma hex_digits_of_byte (b : byte) :
  Hex.unhex (Hex.digit (Byte.to_N b / 16)) = Some (Byte.to_N b / 16)%N ∧
  Hex.unhex (Hex.digit (Byte.to_N b mod 16)) = Some (Byte.to_N b mod 16)%N ∧
  Hex.byte_of_nibbles (Byte.to_N b / 16) (Byte.to_N b mod 16) = b.
Proof. destruct b; vm_compute; done. Qed.

(** Decoding the hexadecimal form of a buffer gives the buffer back. *)
Lemma hex_decode_encode (bs : list byte) : Hex.decode (Hex.encode bs) = bs.
Proof.
  induction bs as [|b rest IH]; [done|].
  destruct (hex_digits_of_byte b) as (Hhi & Hlo & Hb).
  cbn [Hex.encode Hex.decode]. rewrite Hhi, Hlo, Hb, IH. done.
Qed.

Lemma hex_encode_truthy (bs : list byte) :
  bs ≠ [] → truthy (Str (Hex.encode bs)) = true.
Proof. destruct bs; [done|]. intros _. done. Qed.

(** ** Buffers *)

Lemma byte_to_N_inj (x y : byte) : Byte.to_N x = Byte.to_N y → x = y.
Proof.
  intros E. pose proof (Byte.of_to_N x) as Hx. rewrite E, Byte.of_to_N in Hx.
  congruence.
Qed.

(** [Buffer.compare] answers 0 exactly on equal byte sequences. *)
Lemma compare_bytes_0 (a b : list byte) : Buffer.compare_bytes a b = 0%Z ↔ a = b.
Proof.
  revert b. induction a as [|x a IH]; intros [|y b]; cbn; try done.
  destruct (N.compare_spec (Byte.to_N x) (Byte.to_N y)) as [E|L|G].
  - apply byte_to_N_inj in E as ->. rewrite IH. split; congruence.
  - split; [done|]. intros [= -> _]. lia.
  - split; [done|]. intros [= -> _]. lia.
Qed.

(** ** The LRU container *)

Section LRUFacts.
Context {K V : Type} `{EqDecision K}.
Implicit Types (k : K) (v : V) (l : list (K * V)) (c : LRU.t K V).

Lemma find_elem_of k v l : LRU.find k l = Some v → (k, v) ∈ l.
Proof.
  induction l as [|[k' v'] l IH]; cbn; [done|].
  case_decide as E.
  - intros [= ->]. subst. left.
  - intros Hf. right. auto.
Qed.

Lemma elem_of_remove k l (x : K * V) : x ∈ LRU.remove k l → x ∈ l.
Proof.
  induction l as [|[k' v'] l IH]; cbn; [done|].
  case_decide.
  - intros Hx. right. auto.
  - intros [->|Hx]%elem_of_cons; [left | right; auto].
Qed.

Lemma find_remove_eq k l : LRU.find k (LRU.remove k l) = None.
Proof.
  induction l as [|[k' v'] l IH]; cbn; [done|].
  case_decide as E; [done|]. cbn. rewrite decide_False by done. done.
Qed.

Lemma find_remove_ne k k' l : k ≠ k' → LRU.find k' (LRU.remove k l) = LRU.find k' l.
Proof.
  intros Hne. induction l as [|[k0 v0] l IH]; cbn; [done|].
  destruct (decide (k = k0)) as [<-|N0].
  - rewrite IH. rewrite decide_False by done. done.
  - cbn. rewrite IH. done.
Qed.

(** Promoting an entry changes no binding. *)
Lemma find_promote k v k' l :
  LRU.find k l = Some v →
  LRU.find k' ((k, v) :: LRU.remove k l) = LRU.find k' l.
Proof.
  intros Hf. cbn. destruct (decide (k' = k)) as [->|Hne]; [done|].
  apply find_remove_ne. done.
Qed.

(** A miss leaves the container as it was. *)
Lemma get_miss k c : LRU.find k (LRU.entries c) = None → LRU.get k c = (None, c).
Proof. unfold LRU.get. intros ->. done. Qed.

Lemma get_hit k v c :
  LRU.find k (LRU.entries c) = Some v →
  LRU.get k c =
    (Some v, LRU.make (LRU.size c) ((k, v) :: LRU.remove k (LRU.entries c))).
Proof. unfold LRU.get. intros ->. done. Qed.

(** Whatever is in the container after a [put] is the new entry or was
    there before. *)
Lemma elem_of_put k v c (x : K * V) :
  x ∈ LRU.entries (LRU.put k v c) → x = (k, v) ∨ x ∈ LRU.entries c.
Proof.
  cbn. intros Hx%elem_of_take. destruct Hx as (i & Hx & _).
  apply list_elem_of_lookup_2 in Hx.
  apply elem_of_cons in Hx as [->|Hx]; [by left|right].
  eapply elem_of_remove; done.
Qed.

(** A key just put is read back with the value put, if it is there at
    all (a container of capacity 0 holds nothing). *)
Lemma find_put_eq k v v' c :
  LRU.find k (LRU.entries (LRU.put k v c)) = Some v' → v' = v.
Proof.
  cbn. destruct (LRU.size c) as [|n]; cbn; [done|].
  rewrite decide_True by done. congruence.
Qed.

(** What is found in a prefix of the entries is found in all of
    them. *)
Lemma find_take k v n l : LRU.find k (take n l) = Some v → LRU.find k l = Some v.
Proof.
  revert n. induction l as [|[k' v'] l IH]; intros [|n]; cbn; try done.
  case_decide; [done|]. apply IH.
Qed.

End LRUFacts.

(** ** The verification cache *)

Section CacheFacts.
Context {codec : TextCodec} {lib : Crypto}.
Implicit Types (signature publicKey : prim) (data : argument) (s : vstate).

(** A cache miss: the data are read as they are now and verified, the
    check is recorded, and only a successful check is stored. *)
Lemma verifyMessage_miss signature publicKey data s :
  LRU.find signature (LRU.entries (verifiedCache s)) = None →
  verifyMessage signature publicKey data s =
    let seen := view (heap s) data in
    let verified := verifySignature signature publicKey seen in
    let log := (checks s ++ [ {| checked_signature := signature;
                                 checked_publicKey := publicKey;
                                 checked_argument := data;
                                 checked_data := seen;
                                 outcome := verified |} ])%list in
    (verified,
     {| verifiedCache :=
          match verified with
          | Ok true =>
              LRU.put signature
                {| cached_publicKey := publicKey; cached_data := data |}
                (verifiedCache s)
          | _ => verifiedCache s
          end;
        checks := log;
        heap := heap s |}).
Proof.
  intros Hmiss. unfold verifyMessage. rewrite (get_miss _ _ Hmiss). cbn.
  destruct (verifySignature signature publicKey (view (heap s) data)) as [[|]|]; done.
Qed.

(** A cache hit: no check is made; the entry is promoted and compared
    with the arguments, both read as they are now. *)
Lemma verifyMessage_hit signature publicKey data s cached :
  LRU.find signature (LRU.entries (verifiedCache s)) = Some cached →
  verifyMessage signature publicKey data s =
    (if strict_eq (cached_publicKey cached) publicKey
     then compare (view (heap s) (cached_data cached)) (view (heap s) data)
     else Ok false,
     {| verifiedCache :=
          LRU.make (LRU.size (verifiedCache s))
            ((signature, cached) :: LRU.remove signature (LRU.entries (verifiedCache s)));
        checks := checks s;
        heap := heap s |}).
Proof.
  intros Hhit. unfold verifyMessage. rewrite (get_hit _ _ _ Hhit). done.
Qed.

(** No call writes to the caller's objects. *)
Lemma verifyMessage_heap signature publicKey data s :
  heap (verifyMessage signature publicKey data s).2 = heap s.
Proof.
  destruct (LRU.find signature (LRU.entries (verifiedCache s))) as [cached|] eqn:Hf.
  - by rewrite (verifyMessage_hit _ _ _ _ _ Hf).
  - by rewrite (verifyMessage_miss _ _ _ _ Hf).
Qed.

(** The local [compare] answers [true] exactly when the data are the
    same in the specification's sense. *)
Lemma compare_true (cached supplied : JS.data) :
  compare cached supplied = Ok true ↔ same_data cached supplied.
Proof.
  assert (Htext : ∀ d : JS.data, isBuffer d = false →
            (attempt a <- Buffer.toString cached;
             attempt b <- Buffer.toString d;
             Ok (bool_decide (a = b))) = Ok true ↔
            ∃ text, Buffer.toString cached = Ok text ∧ Buffer.toString d = Ok text).
  { intros d _. destruct (Buffer.toString cached) as [a|e]; cbn.
    - destruct (Buffer.toString d) as [b|e]; cbn.
      + case_bool_decide as E.
        * subst. split; [eauto|done].
        * split; [done|]. intros (x & [= ->] & [= ->]). done.
      + split; [done|]. intros (? & _ & ?). done.
    - split; [done|]. intros (? & ? & _). done. }
  unfold compare, same_data. destruct supplied as [p|b|v]; cbn [isBuffer].
  - by apply Htext.
  - unfold Buffer.compare. cbn [binary]. destruct (binary cached) as [x|]; cbn.
    + destruct (Z.eqb_spec (Buffer.compare_bytes x b) 0) as [E|E].
      * apply compare_bytes_0 in E as ->. done.
      * split; [done|]. intros [= ->]. destruct E. by apply compare_bytes_0.
    + split; done.
  - by apply Htext.
Qed.

(** What a call can add to the cache: nothing but its own arguments,
    and those only when they verified. *)
Lemma verifyMessage_entries signature publicKey data s (x : prim * entry) :
  x ∈ LRU.entries (verifiedCache (verifyMessage signature publicKey data s).2) →
  x ∈ LRU.entries (verifiedCache s) ∨
  (x = (signature, {| cached_publicKey := publicKey; cached_data := data |}) ∧
   verifySignature signature publicKey (view (heap s) data) = Ok true ∧
   LRU.find signature (LRU.entries (verifiedCache s)) = None).
Proof.
  destruct (LRU.find signature (LRU.entries (verifiedCache s))) as [cached|] eqn:Hf.
  - rewrite (verifyMessage_hit _ _ _ _ _ Hf). cbn.
    intros [->|Hx]%elem_of_cons; left.
    + by apply find_elem_of.
    + by eapply elem_of_remove.
  - rewrite (verifyMessage_miss _ _ _ _ Hf). cbn.
    destruct (verifySignature signature publicKey (view (heap s) data)) as [[|]|]; auto.
    intros [->|Hx]%elem_of_put; auto.
Qed.

(** The record of checks only grows, and a stored entry's check is the
    last one recorded. *)
Lemma verifyMessage_checks signature publicKey data s :
  ∃ more, checks (verifyMessage signature publicKey data s).2 = (checks s ++ more)%list ∧
    (LRU.find signature (LRU.entries (verifiedCache s)) = None →
     more = [ {| checked_signature := signature; checked_publicKey := publicKey;
                 checked_argument := data;
                 checked_data := view (heap s) data;
                 outcome := verifySignature signature publicKey (view (heap s) data) |} ]).
Proof.
  destruct (LRU.find signature (LRU.entries (verifiedCache s))) as [cached|] eqn:Hf.
  - rewrite (verifyMessage_hit _ _ _ _ _ Hf). exists []. cbn.
    rewrite app_nil_r. done.
  - rewrite (verifyMessage_miss _ _ _ _ Hf). cbn. eauto.
Qed.

(** Entries of a reachable cache were verified successfully: for each
    there is on record a successful check of its signature, its public
    key and its data as they were when checked, which for data the
    caller cannot write to are the data themselves. *)
Lemma reachable_entries_verified s signature cached :
  reachable s →
  (signature, cached) ∈ LRU.entries (verifiedCache s) →
  ∃ seen,
    verifySignature signature (cached_publicKey cached) seen = Ok true ∧
    {| checked_signature := signature;
       checked_publicKey := cached_publicKey cached;
       checked_argument := cached_data cached;
       checked_data := seen;
       outcome := Ok true |} ∈ checks s ∧
    (∀ d, cached_data cached = Direct d → seen = d).
Proof.
  intros Hreach. revert signature cached.
  induction Hreach as [|s sig pk d Hreach IH|s m Hreach IH Hstep];
    intros signature cached Hin.
  - cbn in Hin. by apply elem_of_nil in Hin.
  - destruct (verifyMessage_checks sig pk d s) as (more & Hlog & Hnew).
    rewrite Hlog.
    apply verifyMessage_entries in Hin as [Hold|(Heq & Hok & Hmiss)].
    + destruct (IH _ _ Hold) as (seen & Hv & Hc & Hd). exists seen.
      split_and!; [done| |done]. apply elem_of_app. by left.
    + injection Heq as -> ->. cbn. exists (view (heap s) d).
      split_and!; [done| |by intros ? ->].
      rewrite (Hnew Hmiss), Hok. apply elem_of_app. right. left.
  - cbn in *. by apply IH.
Qed.

(** As long as the caller writes to none of its objects, the entries
    of the cache verify as they are. *)
Lemma undisturbed_entries_verified s signature cached :
  undisturbed s →
  (signature, cached) ∈ LRU.entries (verifiedCache s) →
  verifySignature signature (cached_publicKey cached)
    (view (heap s) (cached_data cached)) = Ok true ∧
  {| checked_signature := signature;
     checked_publicKey := cached_publicKey cached;
     checked_argument := cached_data cached;
     checked_data := view (heap s) (cached_data cached);
     outcome := Ok true |} ∈ checks s.
Proof.
  intros Hquiet. revert signature cached.
  induction Hquiet as [m|s sig pk d Hquiet IH]; intros signature cached Hin.
  - cbn in Hin. by apply elem_of_nil in Hin.
  - destruct (verifyMessage_checks sig pk d s) as (more & Hlog & Hnew).
    rewrite Hlog, verifyMessage_heap.
    apply verifyMessage_entries in Hin as [Hold|(Heq & Hok & Hmiss)].
    + destruct (IH _ _ Hold) as (Hv & Hc).
      split; [done|]. apply elem_of_app. by left.
    + injection Heq as -> ->. cbn. split; [done|].
      rewrite (Hnew Hmiss), Hok. apply elem_of_app. right. left.
Qed.

(** C1, as the code has it: the verification cache only ever holds
    what a positive check put there. In every reachable state, an
    entry present under a signature has on record a successful check
    of exactly its signature, its public key and its data as they were
    at the time of the check; for data the caller cannot write to, a
    string say, these are the data themselves, and as long as the
    caller writes to none of the objects it passed, the entry as it is
    verifies. A call adds nothing to the cache but its own arguments,
    and those only when [verifySignature] returned [true]; when it did
    not return [true], the call stores nothing. *)
Theorem cache_holds_verified_only s :
  reachable s →
  (∀ signature cached,
     (signature, cached) ∈ LRU.entries (verifiedCache s) →
     ∃ seen,
       verifySignature signature (cached_publicKey cached) seen = Ok true ∧
       {| checked_signature := signature;
          checked_publicKey := cached_publicKey cached;
          checked_argument := cached_data cached;
          checked_data := seen;
          outcome := Ok true |} ∈ checks s ∧
       (∀ d, cached_data cached = Direct d → seen = d)) ∧
  (undisturbed s →
   ∀ signature cached,
     (signature, cached) ∈ LRU.entries (verifiedCache s) →
     verifySignature signature (cached_publicKey cached)
       (view (heap s) (cached_data cached)) = Ok true ∧
     {| checked_signature := signature;
        checked_publicKey := cached_publicKey cached;
        checked_argument := cached_data cached;
        checked_data := view (heap s) (cached_data cached);
        outcome := Ok true |} ∈ checks s) ∧
  (∀ signature publicKey data (x : prim * entry),
     let s' := (verifyMessage signature publicKey data s).2 in
     (x ∈ LRU.entries (verifiedCache s') →
      x ∈ LRU.entries (verifiedCache s) ∨
      (x = (signature, {| cached_publicKey := publicKey; cached_data := data |}) ∧
       verifySignature signature publicKey (view (heap s) data) = Ok true)) ∧
     (verifySignature signature publicKey (view (heap s) data) ≠ Ok true →
      LRU.find signature (LRU.entries (verifiedCache s)) = None →
      verifiedCache s' = verifiedCache s)).
Proof.
  intros Hreach. split_and!.
  - intros signature cached. by apply reachable_entries_verified.
  - intros Hquiet signature cached. by apply undisturbed_entries_verified.
  - intros signature publicKey data x s'. split.
    + intros Hx. apply verifyMessage_entries in Hx as [?|(? & ? & _)]; auto.
    + intros Hneg Hmiss. subst s'. rewrite (verifyMessage_miss _ _ _ _ Hmiss). cbn.
      destruct (verifySignature signature publicKey (view (heap s) data)) as [[|]|]; done.
Qed.

(** C2: on a cache hit no cryptographic check is made (the record of
    checks is unchanged), and the call returns [true] exactly when the
    supplied public key is the cached one and the supplied data are the
    cached data, byte for byte if binary and by string form otherwise,
    both read as they are at the time of the call. In particular a
    different public key gives [false]. *)
Theorem cache_hit_compares signature pubA (dataA : argument) pubB (dataB : argument) s :
  LRU.find signature (LRU.entries (verifiedCache s)) =
    Some {| cached_publicKey := pubA; cached_data := dataA |} →
  let r := verifyMessage signature pubB dataB s in
  checks r.2 = checks s ∧
  (r.1 = Ok true ↔
   pubB = pubA ∧ same_data (view (heap s) dataA) (view (heap s) dataB)) ∧
  (pubB ≠ pubA → r.1 = Ok false).
Proof.
  intros Hhit r. subst r. rewrite (verifyMessage_hit _ _ _ _ _ Hhit). cbn.
  unfold strict_eq. split; [done|]. case_bool_decide as E.
  - subst. rewrite compare_true. split; [tauto|done].
  - split; [|done]. split; [done|]. intros [-> _]. done.
Qed.

(** No call changes the entry a signature is bound to: after the call
    the signature is bound as before, or, evicted, to nothing. *)
Lemma verifyMessage_binding_stable signature publicKey data s k (e e' : entry) :
  LRU.find k (LRU.entries (verifiedCache s)) = Some e →
  LRU.find k (LRU.entries (verifiedCache (verifyMessage signature publicKey data s).2))
    = Some e' →
  e' = e.
Proof.
  intros Hbefore.
  destruct (LRU.find signature (LRU.entries (verifiedCache s))) as [cached|] eqn:Hf.
  - rewrite (verifyMessage_hit _ _ _ _ _ Hf). cbn [snd verifiedCache LRU.entries].
    rewrite (find_promote _ _ _ _ Hf). congruence.
  - rewrite (verifyMessage_miss _ _ _ _ Hf). cbn.
    destruct (verifySignature signature publicKey (view (heap s) data)) as [[|]|];
      [|congruence..].
    cbn. intros Hafter%find_take. cbn in Hafter.
    destruct (decide (k = signature)) as [->|Hne]; [congruence|].
    rewrite find_remove_ne in Hafter by done. congruence.
Qed.

(** C9, as the code has it: a cache hit performs no [put]. After the
    call every signature is bound to the same public key and data as
    before, no entry has been added, the capacity is the same, no
    check has been made and the caller's objects are untouched; the
    lookup only moves the entry that was hit to the front of the
    recency order. This holds whatever the call returns. So the public
    key and data a signature is bound to are not overwritten by a
    later call: whatever the later call's arguments, a signature still
    in the cache is bound as it was. *)
Theorem cache_hit_keeps_bindings signature publicKey data s cached :
  LRU.find signature (LRU.entries (verifiedCache s)) = Some cached →
  let s' := (verifyMessage signature publicKey data s).2 in
  (∀ k, LRU.find k (LRU.entries (verifiedCache s')) =
        LRU.find k (LRU.entries (verifiedCache s))) ∧
  (∀ x, x ∈ LRU.entries (verifiedCache s') → x ∈ LRU.entries (verifiedCache s)) ∧
  LRU.entries (verifiedCache s') =
    (signature, cached) :: LRU.remove signature (LRU.entries (verifiedCache s)) ∧
  LRU.size (verifiedCache s') = LRU.size (verifiedCache s) ∧
  checks s' = checks s ∧
  (∀ later pk d bound,
     LRU.find signature
       (LRU.entries (verifiedCache (verifyMessage later pk d s').2)) = Some bound →
     bound = cached) ∧
  heap s' = heap s.
Proof.
  intros Hhit s'.
  assert (Hbound : LRU.find signature (LRU.entries (verifiedCache s')) = Some cached).
  { subst s'. rewrite (verifyMessage_hit _ _ _ _ _ Hhit). cbn.
    by rewrite decide_True. }
  split_and!.
  - intros k. subst s'. rewrite (verifyMessage_hit _ _ _ _ _ Hhit). cbn [snd].
    by apply find_promote.
  - subst s'. rewrite (verifyMessage_hit _ _ _ _ _ Hhit). cbn.
    intros x [->|Hx]%elem_of_cons.
    + by apply find_elem_of.
    + by eapply elem_of_remove.
  - subst s'. by rewrite (verifyMessage_hit _ _ _ _ _ Hhit).
  - subst s'. by rewrite (verifyMessage_hit _ _ _ _ _ Hhit).
  - subst s'. by rewrite (verifyMessage_hit _ _ _ _ _ Hhit).
  - intros later pk d bound Hlater.
    by eapply verifyMessage_binding_stable.
  - apply verifyMessage_heap.
Qed.

(** [verifySignature] answers only for arguments that pass its guards. *)
Lemma verifySignature_guards signature publicKey (d : JS.data) b :
  verifySignature signature publicKey d = Ok b →
  truthy signature = true ∧ truthy publicKey = true ∧ truthy_data d = true.
Proof.
  unfold verifySignature.
  destruct (truthy signature), (truthy publicKey), (truthy_data d); done.
Qed.

(** A string or a [Buffer] that passes the guard has bytes, and has a
    string form whether it passes or not. *)
Lemma plain_data_forms (d : JS.data) :
  plain_data d = true →
  (truthy_data d = true → ∃ msg, Buffer.from d = Ok msg) ∧
  (∃ text, Buffer.toString d = Ok text).
Proof. destruct d as [[| |t]|b|v]; cbn; try done; eauto. Qed.

(** C3, as the code has it: for every signature and public key that
    are non-empty strings and data that are a non-empty string or a
    [Buffer], [verifySignature] returns a boolean and never throws;
    any exception raised while parsing the key or the signature or
    while verifying collapses to [false]. The cached [verifyMessage]
    returns that same boolean on a cache miss, and on a cache hit it
    returns a boolean whenever the cached data are a string or a
    [Buffer] as well and are not a string while a [Buffer] is
    supplied. *)
Theorem verification_never_throws signature publicKey (d : JS.data) :
  truthy signature = true → truthy publicKey = true → truthy_data d = true →
  plain_data d = true →
  ∃ b, verifySignature signature publicKey d = Ok b ∧
    (∀ msg e, Buffer.from d = Ok msg →
       guarded_check signature publicKey msg = Throw e → b = false) ∧
    (∀ s data, view (heap s) data = d →
       LRU.find signature (LRU.entries (verifiedCache s)) = None →
       (verifyMessage signature publicKey data s).1 = Ok b) ∧
    (∀ s data cached, view (heap s) data = d →
       LRU.find signature (LRU.entries (verifiedCache s)) = Some cached →
       plain_data (view (heap s) (cached_data cached)) = true →
       (isBuffer d = true → isBuffer (view (heap s) (cached_data cached)) = true) →
       ∃ b', (verifyMessage signature publicKey data s).1 = Ok b').
Proof.
  intros Hs Hp Hd Hplain.
  destruct (plain_data_forms _ Hplain) as [Hbytes [text Htext]].
  destruct (Hbytes Hd) as [msg Hmsg].
  assert (Hv : verifySignature signature publicKey d =
               Ok (try_or false (guarded_check signature publicKey msg))).
  { unfold verifySignature. rewrite Hs, Hp, Hd, Hmsg. done. }
  eexists. split; [exact Hv|]. split_and!.
  - intros msg' e Hmsg' Hthrow. rewrite Hmsg in Hmsg'. injection Hmsg' as <-.
    rewrite Hthrow. done.
  - intros s data Hview Hmiss. rewrite (verifyMessage_miss _ _ _ _ Hmiss). cbn.
    by rewrite Hview.
  - intros s data cached Hview Hhit Hcached Hkind.
    rewrite (verifyMessage_hit _ _ _ _ _ Hhit). cbn. rewrite Hview.
    destruct (strict_eq (cached_publicKey cached) publicKey); [|eauto].
    destruct (plain_data_forms _ Hcached) as [_ [ctext Hctext]].
    unfold compare. destruct (isBuffer d) eqn:Hb.
    + specialize (Hkind eq_refl).
      destruct d as [?|y|?]; [done| |done].
      destruct (view (heap s) (cached_data cached)) as [?|x|?]; [done| |done].
      cbn. eauto.
    + rewrite Hctext, Htext. cbn. eauto.
Qed.

End CacheFacts.

(** ** The key store *)

Section KeyStoreFacts.
Context {codec : TextCodec} {lib : Crypto} {backing : Storage}.
Implicit Types (id : prim) (i : string) (s : kstate).

Lemma truthy_Str i : i ≠ "" → truthy (Str i) = true.
Proof. intros Hi. cbn. by rewrite bool_decide_eq_false_2. Qed.

(** What the guard [!id] rejects. *)
Lemma falsy_id id : truthy id = false ↔ id = Undefined ∨ id = Null ∨ id = Str "".
Proof.
  destruct id as [| |t]; cbn; [naive_solver..|].
  case_bool_decide as E; cbn; [subst; tauto|].
  split; [done|]. intros [?|[?|?]]; congruence.
Qed.

(** C7: for every empty or absent id ([undefined], as when no argument
    is given, [null], or the empty string) each of [createKey],
    [getKey] and [hasKey] fails with its invalid-argument error before
    anything else happens: the state is the one it was called in, with
    the same storage and no storage call on the trace. *)
Theorem missing_id_is_rejected id s :
  id = Undefined ∨ id = Null ∨ id = Str "" →
  createKey id s = (Throw (Error "id needed to create a key"), s) ∧
  getKey id s = (Throw (Error "id needed to get a key"), s) ∧
  hasKey id s = (Throw (Error "id needed to check a key"), s).
Proof.
  intros Hid%falsy_id. unfold createKey, getKey, hasKey. rewrite Hid. done.
Qed.

(** [getKey] in terms of what the storage read gives. *)
Lemma getKey_read i s :
  i ≠ "" →
  getKey (Str i) s =
    let s1 := {| storage := (storage_get ("private_" ++ i) (storage s)).2;
                 random := random s; console := console s;
                 ops := (ops s ++ [Get ("private_" ++ i)])%list |} in
    match (storage_get ("private_" ++ i) (storage s)).1 with
    | Ok (Bytes bytes) =>
        (match unmarshal bytes with
         | Ok key => Ok (Some key)
         | Throw e => Throw e
         end, s1)
    | Ok (Foreign true loads) =>
        (match loads with
         | Ok key => Ok (Some key)
         | Throw e => Throw e
         end, s1)
    | _ => (Ok None, s1)
    end.
Proof.
  intros Hi. unfold getKey. rewrite (truthy_Str _ Hi). cbn.
  change ("private_" ++ i) with (private_key_of (Str i)).
  unfold bind, catch, get, lift, ret. cbn.
  destruct (storage_get (private_key_of (Str i)) (storage s))
    as [[[| |bytes|[|] loads]|e] st]; cbn; try done.
  - destruct (unmarshal bytes); done.
  - destruct loads; done.
Qed.

(** [hasKey] in terms of what the storage read gives. *)
Lemma hasKey_read i s :
  i ≠ "" →
  hasKey (Str i) s =
    let st := (storage_get ("private_" ++ i) (storage s)).2 in
    let trace := (ops s ++ [Get ("private_" ++ i)])%list in
    match (storage_get ("private_" ++ i) (storage s)).1 with
    | Ok v =>
        (Ok (stored_present v),
         {| storage := st; random := random s; console := console s;
            ops := trace |})
    | Throw _ =>
        (Ok false,
         {| storage := st; random := random s;
            console := (console s ++ ["Error: ENOENT: no such file or directory"])%list;
            ops := trace |})
    end.
Proof.
  intros Hi. unfold hasKey. rewrite (truthy_Str _ Hi). cbn.
  change ("private_" ++ i) with (private_key_of (Str i)).
  unfold bind, catch, get, console_error, ret. cbn.
  destruct (storage_get (private_key_of (Str i)) (storage s)) as [[v|e] st]; done.
Qed.

(** C6: for an id with no stored record, [getKey] returns [undefined]
    and does not throw, also when the storage read fails (it returns
    [undefined] whenever the read gives nothing truthy); [hasKey]
    returns [true] exactly when the read under ["private_" + id] gives
    a record that is neither [undefined] nor [null], and [false] when
    the read throws. *)
Theorem lookups_of_absent_keys i s :
  i ≠ "" →
  let read := (storage_get ("private_" ++ i) (storage s)).1 in
  ((∀ v, read = Ok v → stored_truthy v = false) → (getKey (Str i) s).1 = Ok None) ∧
  (∀ e, read = Throw e → (getKey (Str i) s).1 = Ok None) ∧
  ∃ b, (hasKey (Str i) s).1 = Ok b ∧
       (b = true ↔ ∃ v, read = Ok v ∧ v ≠ Absent ∧ v ≠ NullValue) ∧
       (∀ e, read = Throw e → b = false).
Proof.
  intros Hi read. subst read.
  rewrite (getKey_read _ _ Hi), (hasKey_read _ _ Hi). cbn.
  destruct (storage_get ("private_" ++ i) (storage s)).1
    as [[| |bytes|[|] loads]|e]; cbn.
  - split_and!; [done..|]. exists false.
    split_and!; [done| |done]. split; [done|]. by intros (? & [= <-] & ? & _).
  - split_and!; [done..|]. exists false.
    split_and!; [done| |done]. split; [done|]. by intros (? & [= <-] & _ & ?).
  - split_and!; [intros Hn; by specialize (Hn _ eq_refl) | done |].
    exists true. split_and!; [done| |done]. split; [|done]. intros _. by eexists.
  - split_and!; [intros Hn; by specialize (Hn _ eq_refl) | done |].
    exists true. split_and!; [done| |done]. split; [|done]. intros _. by eexists.
  - split_and!; [done..|]. exists true.
    split_and!; [done| |done]. split; [|done]. intros _. by eexists.
  - split_and!; [done..|]. exists false.
    split_and!; [done| |done]. split; [done|]. by intros (? & ? & _).
Qed.

(** [createKey] on a working storage and library: the generated key is
    returned and its private bytes are written. *)
Lemma createKey_runs i s :
  CryptoLaws → StorageLaws → i ≠ "" →
  let keys := (generateKeyPair (random s)).1 in
  genuine keys ∧
  createKey (Str i) s =
    (Ok keys,
     {| storage := (storage_put ("private_" ++ i) (private_bytes keys) (storage s)).2;
        random := (generateKeyPair (random s)).2;
        console := console s;
        ops := (ops s ++ [Put ("private_" ++ i) (private_bytes keys)])%list |}).
Proof.
  intros CL SL Hi keys.
  assert (Hg : genuine keys) by apply (generated_genuine CL).
  split; [done|].
  unfold createKey. rewrite (truthy_Str _ Hi). cbn.
  change ("private_" ++ i) with (private_key_of (Str i)).
  unfold bind, generate, lift, addKey, put, ret. cbn. subst keys.
  destruct (generateKeyPair (random s)) as [pair r] eqn:Hgen. cbn in *.
  rewrite (record_roundtrip CL _ Hg). cbn. unfold marshal.
  pose proof (put_succeeds SL (private_key_of (Str i)) (private_bytes pair) (storage s))
    as Hput.
  destruct (storage_put (private_key_of (Str i)) (private_bytes pair) (storage s))
    as [rp st].
  cbn in *. subst rp. done.
Qed.

(** C5: for every non-empty id, on a working storage, [createKey]
    writes the private-key bytes under ["private_" + id], and nothing
    else (a single write; the public key is not stored), and returns
    the key pair. A following [getKey] rebuilds from the stored bytes a
    key pair equal to the one returned, its public key being the one
    the library derives from the private bytes, and a second [getKey]
    returns an equal key pair again. *)
Theorem createKey_then_getKey i s :
  CryptoLaws → StorageLaws → i ≠ "" →
  ∃ keys s1,
    createKey (Str i) s = (Ok keys, s1) ∧
    ops s1 = (ops s ++ [Put ("private_" ++ i) (private_bytes keys)])%list ∧
    storage s1 =
      (storage_put ("private_" ++ i) (private_bytes keys) (storage s)).2 ∧
    ∃ s2, getKey (Str i) s1 = (Ok (Some keys), s2) ∧
      unmarshal (private_bytes keys) = Ok keys ∧
      ∃ s3, getKey (Str i) s2 = (Ok (Some keys), s3).
Proof.
  intros CL SL Hi.
  destruct (createKey_runs i s CL SL Hi) as [Hg Hc].
  eexists _, _. split; [exact Hc|]. cbn. split; [done|]. split; [done|].
  set (keys := (generateKeyPair (random s)).1) in *.
  set (key := "private_" ++ i) in *.
  pose proof (get_after_put SL key (private_bytes keys) (storage s)) as Hread.
  eexists. split; [|split; [exact Hg|]].
  - rewrite (getKey_read _ _ Hi). cbn. fold key. rewrite Hread.
    unfold genuine, marshal in Hg. rewrite Hg. done.
  - eexists. rewrite (getKey_read _ _ Hi). cbn. fold key.
    rewrite (get_repeatable SL), Hread.
    unfold genuine, marshal in Hg. rewrite Hg. done.
Qed.

(** The key [createKey] returns is one the library built. *)
Lemma createKey_genuine id s key s' :
  CryptoLaws → createKey id s = (Ok key, s') → genuine key.
Proof.
  intros CL. unfold createKey. destruct (truthy id); cbn; [|done].
  unfold bind, generate, lift, addKey, put, ret. cbn.
  pose proof (generated_genuine CL (random s)) as Hg.
  destruct (generateKeyPair (random s)) as [pair r]. cbn in *.
  rewrite (record_roundtrip CL _ Hg). cbn.
  destruct (storage_put _ _ _) as [[[]|e] st]; [|done].
  by intros [= <- _].
Qed.

(** With no format given, [getPublic] answers in hexadecimal. *)
Lemma getPublic_default key :
  getPublic (Some key) Undefined = Ok (Prim (Str (Hex.encode (public_bytes key)))).
Proof. done. Qed.

(** A signature made with a genuine key verifies under its public key. *)
Lemma genuine_signature_verifies key data msg :
  CryptoLaws → genuine key → truthy_data data = true → Buffer.from data = Ok msg →
  ∃ signature,
    signMessage (Some key) data = Ok signature ∧
    verifySignature (Str signature) (Str (Hex.encode (public_bytes key))) data = Ok true.
Proof.
  intros CL Hg Hd Hmsg.
  destruct (sign_nonempty CL key msg Hg) as (sig & Hsign & Hne).
  destruct (sign_verify CL key msg sig Hg Hsign) as (pk & Hpk & Hver).
  exists (Hex.encode sig). split.
  - unfold signMessage. rewrite Hd, Hmsg. cbn. rewrite Hsign. done.
  - unfold verifySignature.
    rewrite (hex_encode_truthy _ Hne), (hex_encode_truthy _ (public_nonempty CL _ Hg)).
    rewrite Hd, Hmsg. cbn. unfold guarded_check. cbn.
    rewrite !hex_decode_encode, Hpk. cbn. rewrite Hver. done.
Qed.

(** C4: the sign/verify round trip. For every key pair [createKey]
    has just returned and all data that are not empty (a non-empty
    string or a [Buffer]; of any other truthy value it is asked that
    [Buffer.from] makes bytes of it), [signMessage] yields a signature
    in hexadecimal which [verifySignature] accepts for the same data
    under the key's public key in hexadecimal, as [getPublic] gives
    it. *)
Theorem sign_verify_roundtrip id s key s' data :
  CryptoLaws →
  createKey id s = (Ok key, s') →
  truthy_data data = true →
  (∀ v, data = Other v → ∃ bytes, other_bytes v = Ok bytes) →
  ∃ signature pub,
    signMessage (Some key) data = Ok signature ∧
    getPublic (Some key) Undefined = Ok (Prim (Str pub)) ∧
    verifySignature (Str signature) (Str pub) data = Ok true.
Proof.
  intros CL Hcreate Hd Hother.
  assert (∃ msg, Buffer.from data = Ok msg) as [msg Hmsg].
  { destruct data as [[| |t]|b|v]; cbn in *; try done; eauto. }
  pose proof (createKey_genuine _ _ _ _ CL Hcreate) as Hg.
  destruct (genuine_signature_verifies key data msg CL Hg Hd Hmsg) as (sig & Hs & Hv).
  exists sig, (Hex.encode (public_bytes key)). done.
Qed.

(** A format that is given and is neither ['hex'] nor ['buffer'] is
    rejected whatever the key pair is. *)
Lemma unsupported_format keys format :
  truthy format = true → format ≠ Str "hex" → format ≠ Str "buffer" →
  getPublic keys format = Throw (Error "Supported formats are `hex` and `buffer`").
Proof.
  intros Ht Hh Hb. unfold getPublic, or_else. rewrite Ht. cbn. unfold strict_eq.
  rewrite !bool_decide_eq_false_2 by congruence. done.
Qed.

(** C8, as the code has it: for every key pair, [getPublic] with
    format ['hex'] returns exactly the hexadecimal encoding of the
    bytes it returns with format ['buffer']; every format that is
    given (not absent, [null] or empty) and is neither ['hex'] nor
    ['buffer'] fails with the invalid-argument error; an absent, [null]
    or empty format stands for ['hex']. *)
Theorem getPublic_formats key format :
  (∃ bytes, getPublic (Some key) (Str "buffer") = Ok (Buf bytes) ∧
            getPublic (Some key) (Str "hex") = Ok (Prim (Str (Hex.encode bytes)))) ∧
  (truthy format = true → format ≠ Str "hex" → format ≠ Str "buffer" →
   getPublic (Some key) format =
     Throw (Error "Supported formats are `hex` and `buffer`")) ∧
  (truthy format = false →
   getPublic (Some key) format = getPublic (Some key) (Str "hex")).
Proof.
  split_and!.
  - exists (public_bytes key). done.
  - apply unsupported_format.
  - intros Hf. unfold getPublic, or_else. rewrite Hf. done.
Qed.

(** C10, as the code has it: [getPublic] checks the format before it
    touches the key pair. With an absent key pair, every format that
    is given (not absent, [null] or empty) and is neither ['hex'] nor
    ['buffer'] makes the call throw the unsupported-format error, not
    the error of reading a property of the missing key pair. *)
Theorem getPublic_checks_format_first format :
  truthy format = true → format ≠ Str "hex" → format ≠ Str "buffer" →
  getPublic None format = Throw (Error "Supported formats are `hex` and `buffer`").
Proof.
  intros Hgiven Hhex Hbuffer. unfold getPublic, or_else. rewrite Hgiven.
  cbn [indexOf]. unfold strict_eq.
  rewrite (bool_decide_eq_false_2 (Str "hex" = format)) by congruence.
  rewrite (bool_decide_eq_false_2 (Str "buffer" = format)) by congruence.
  done.
Qed.

End KeyStoreFacts.

(** ** The stand-ins meet the assumptions *)

Lemma composed_storage_laws : @StorageLaws ComposedStorage.storage.
Proof.
  split; cbn.
  - done.
  - intros k v st. unfold ComposedStorage.get, ComposedStorage.put. cbn.
    unfold LRU.get.
    destruct (LRU.find k (LRU.entries (LRU.put k v _))) as [v'|] eqn:Hf; cbn.
    + by apply find_put_eq in Hf as ->.
    + by rewrite lookup_insert_eq.
  - intros k st. unfold ComposedStorage.get at 2 3.
    destruct (LRU.find k (LRU.entries (ComposedStorage.cache_tier st))) as [v|] eqn:Hf.
    + rewrite (get_hit _ _ _ Hf). cbn.
      unfold ComposedStorage.get, LRU.get. cbn. by rewrite decide_True.
    + rewrite (get_miss _ _ Hf).
      destruct (ComposedStorage.persistent_tier st !! k) as [v|] eqn:Hp; cbn.
      * unfold ComposedStorage.get, LRU.get. cbn [ComposedStorage.cache_tier].
        destruct (LRU.find k (LRU.entries (LRU.put k v _))) as [v'|] eqn:Hf'; cbn.
        -- by apply find_put_eq in Hf' as ->.
        -- by rewrite Hp.
      * unfold ComposedStorage.get. by rewrite (get_miss _ _ Hf), Hp.
Qed.

Lemma sample_genuine (k : PrivateKey) :
  @genuine Sample.crypto k →
  private_bytes k ≠ [] ∧ public_bytes k = x02 :: private_bytes k.
Proof.
  unfold genuine, marshal. cbn. destruct k as [priv pub]. cbn.
  destruct priv as [|b priv]; cbn; [done|]. by intros [= <-].
Qed.

Lemma sample_crypto_laws : @CryptoLaws Sample.crypto.
Proof.
  split; cbn.
  - intros n. done.
  - intros k Hg. exact Hg.
  - intros k Hg. apply sample_genuine in Hg as [_ ->]. done.
  - intros k msg _. eexists. split; [done|]. done.
  - intros k msg sig Hg [= <-]. apply sample_genuine in Hg as [Hne Hpub].
    exists {| key_bytes := public_bytes k |}. rewrite Hpub.
    destruct (private_bytes k) as [|b priv]; [done|]. cbn.
    by rewrite bool_decide_eq_true_2.
Qed.

(** ** The properties on concrete inputs *)

(** Cases of the test suite, on the stand-in library. *)
Example does_not_verify_bad_signature :
  (@verifyMessage Sample.codec Sample.crypto (Str "xxxxxx") (Str Sample.pub)
     Sample.message initial).1 = Ok false.
Proof. vm_compute. reflexivity. Qed.

Example verifies_content_then_hits_cache :
  (@verifyMessage Sample.codec Sample.crypto (Str Sample.signature) (Str Sample.pub)
     Sample.message initial).1 = Ok true ∧
  let again := @verifyMessage Sample.codec Sample.crypto (Str Sample.signature)
                 (Str Sample.pub) Sample.message Sample.verified_once in
  again.1 = Ok true ∧ checks again.2 = checks Sample.verified_once.
Proof. vm_compute. done. Qed.

Example gets_a_non_existent_key :
  (@getKey Sample.crypto ComposedStorage.storage (Str "key111111111") Sample.fresh).1
    = Ok None.
Proof. vm_compute. reflexivity. Qed.

Example returns_true_if_key_exists :
  (@hasKey Sample.crypto ComposedStorage.storage (Str "userA") Sample.created).1
    = Ok true ∧
  (@hasKey Sample.crypto ComposedStorage.storage (Str "key1234567890") Sample.created).1
    = Ok false.
Proof. vm_compute. done. Qed.

Example signing_without_key_or_data_throws :
  @signMessage Sample.codec Sample.crypto None Sample.message
    = Throw (Error "No signing key given") ∧
  @signMessage Sample.codec Sample.crypto (Some Sample.key) Undefined
    = Throw (Error "Given input data was undefined").
Proof. vm_compute. done. Qed.

Lemma sample_signature :
  @signMessage Sample.codec Sample.crypto (Some Sample.key) Sample.message
    = Ok Sample.signature ∧
  @signMessage Sample.codec Sample.crypto (Some Sample.key) Sample.other_message
    = Ok Sample.other_signature.
Proof. split; vm_compute; reflexivity. Qed.

Lemma cache_holds_verified_only_witness :
  @reachable Sample.codec Sample.crypto Sample.verified_once ∧
  ∀ signature cached,
    (signature, cached) ∈ LRU.entries (verifiedCache Sample.verified_once) →
    ∃ seen,
      @verifySignature Sample.codec Sample.crypto signature
        (cached_publicKey cached) seen = Ok true ∧
      {| checked_signature := signature;
         checked_publicKey := cached_publicKey cached;
         checked_argument := cached_data cached;
         checked_data := seen;
         outcome := Ok true |} ∈ checks Sample.verified_once ∧
      (∀ d, cached_data cached = Direct d → seen = d).
Proof.
  assert (Hr : @reachable Sample.codec Sample.crypto Sample.verified_once).
  { exact (reachable_call initial (Str Sample.signature) (Str Sample.pub)
             Sample.message reachable_initial). }
  split; [exact Hr|].
  exact (proj1 (@cache_holds_verified_only Sample.codec Sample.crypto
                  Sample.verified_once Hr)).
Defined.

Lemma cache_hit_compares_witness :
  LRU.find (Str Sample.signature) (LRU.entries (verifiedCache Sample.verified_once)) =
    Some {| cached_publicKey := Str Sample.pub; cached_data := Sample.message |} ∧
  let r := @verifyMessage Sample.codec Sample.crypto (Str Sample.signature)
             (Str "02ff") Sample.message Sample.verified_once in
  checks r.2 = checks Sample.verified_once ∧
  (r.1 = Ok true ↔ Str "02ff" = Str Sample.pub ∧
                   @same_data Sample.codec Sample.message Sample.message) ∧
  (Str "02ff" ≠ Str Sample.pub → r.1 = Ok false).
Proof.
  split; [vm_compute; reflexivity|].
  apply (@cache_hit_compares Sample.codec Sample.crypto (Str Sample.signature)
           (Str Sample.pub) (Direct Sample.message) (Str "02ff")
           (Direct Sample.message) Sample.verified_once).
  vm_compute; reflexivity.
Defined.

Lemma verification_never_throws_witness :
  truthy (Str "xxxxxx") = true ∧ truthy (Str Sample.pub) = true ∧
  truthy_data Sample.message = true ∧ plain_data Sample.message = true ∧
  ∃ b, @verifySignature Sample.codec Sample.crypto (Str "xxxxxx") (Str Sample.pub)
         Sample.message = Ok b.
Proof.
  split_and!; [reflexivity..|].
  destruct (@verification_never_throws Sample.codec Sample.crypto
              (Str "xxxxxx") (Str Sample.pub) Sample.message
              eq_refl eq_refl eq_refl eq_refl) as (b & Hb & _).
  exists b. exact Hb.
Defined.

Lemma sign_verify_roundtrip_witness :
  @CryptoLaws Sample.crypto ∧
  @createKey Sample.crypto ComposedStorage.storage (Str "userA") Sample.fresh =
    (Ok Sample.key, Sample.created) ∧
  truthy_data Sample.message = true ∧
  (∀ v, Sample.message = Other v → ∃ bytes, other_bytes v = Ok bytes) ∧
  ∃ signature pub,
    @signMessage Sample.codec Sample.crypto (Some Sample.key) Sample.message
      = Ok signature ∧
    getPublic (Some Sample.key) Undefined = Ok (Prim (Str pub)) ∧
    @verifySignature Sample.codec Sample.crypto (Str signature) (Str pub)
      Sample.message = Ok true.
Proof.
  split_and!; [exact sample_crypto_laws | reflexivity | reflexivity | discriminate |].
  apply (@sign_verify_roundtrip Sample.codec Sample.crypto ComposedStorage.storage
           (Str "userA") Sample.fresh Sample.key Sample.created Sample.message
           sample_crypto_laws); [reflexivity | reflexivity | discriminate].
Defined.

Lemma createKey_then_getKey_witness :
  @CryptoLaws Sample.crypto ∧ @StorageLaws ComposedStorage.storage ∧ "userA" ≠ "" ∧
  ∃ keys s1,
    @createKey Sample.crypto ComposedStorage.storage (Str "userA") Sample.fresh
      = (Ok keys, s1) ∧
    ∃ s2, @getKey Sample.crypto ComposedStorage.storage (Str "userA") s1
            = (Ok (Some keys), s2).
Proof.
  split_and!; [exact sample_crypto_laws | exact composed_storage_laws | discriminate |].
  destruct (@createKey_then_getKey Sample.crypto ComposedStorage.storage
              "userA" Sample.fresh sample_crypto_laws composed_storage_laws
              ltac:(discriminate))
    as (keys & s1 & Hc & _ & _ & s2 & Hg & _).
  exists keys, s1. split; [exact Hc|]. exists s2. exact Hg.
Defined.

Lemma lookups_of_absent_keys_witness :
  "key111111111" ≠ "" ∧
  (@getKey Sample.crypto ComposedStorage.storage (Str "key111111111") Sample.fresh).1
    = Ok None ∧
  (@getKey Sample.crypto Sample.broken (Str "key111111111") Sample.unreadable).1
    = Ok None.
Proof.
  split_and!; [discriminate | |].
  - apply (@lookups_of_absent_keys Sample.crypto ComposedStorage.storage
             "key111111111" Sample.fresh ltac:(discriminate)).
    intros v. vm_compute. by intros [= <-].
  - apply (proj1 (proj2 (@lookups_of_absent_keys Sample.crypto Sample.broken
             "key111111111" Sample.unreadable ltac:(discriminate)))
             (LibraryError "ENOENT: no such file or directory")).
    reflexivity.
Defined.

Lemma missing_id_is_rejected_witness :
  (Null = Undefined ∨ Null = Null ∨ Null = Str "") ∧
  @createKey Sample.crypto ComposedStorage.storage Null Sample.fresh =
    (Throw (Error "id needed to create a key"), Sample.fresh) ∧
  @getKey Sample.crypto ComposedStorage.storage Null Sample.fresh =
    (Throw (Error "id needed to get a key"), Sample.fresh) ∧
  @hasKey Sample.crypto ComposedStorage.storage Null Sample.fresh =
    (Throw (Error "id needed to check a key"), Sample.fresh).
Proof.
  split; [right; left; reflexivity|].
  apply (@missing_id_is_rejected Sample.crypto ComposedStorage.storage Null Sample.fresh).
  right; left; reflexivity.
Defined.

Lemma getPublic_formats_witness :
  truthy (Str "foo") = true ∧ Str "foo" ≠ Str "hex" ∧ Str "foo" ≠ Str "buffer" ∧
  truthy Null = false ∧
  getPublic (Some Sample.key) (Str "foo") =
    Throw (Error "Supported formats are `hex` and `buffer`") ∧
  getPublic (Some Sample.key) Null = getPublic (Some Sample.key) (Str "hex").
Proof.
  destruct (getPublic_formats Sample.key (Str "foo")) as (_ & Hbad & _).
  destruct (getPublic_formats Sample.key Null) as (_ & _ & Hdefault).
  split_and!; [reflexivity | discriminate | discriminate | reflexivity | |].
  - apply Hbad; [reflexivity | discriminate | discriminate].
  - apply Hdefault. reflexivity.
Defined.

Lemma cache_hit_keeps_bindings_witness :
  LRU.find (Str Sample.signature) (LRU.entries (verifiedCache Sample.verified_twice)) =
    Some {| cached_publicKey := Str Sample.pub; cached_data := Sample.message |} ∧
  ∀ k, LRU.find k (LRU.entries (verifiedCache
         (@verifyMessage Sample.codec Sample.crypto (Str Sample.signature)
            (Str Sample.pub) Sample.message Sample.verified_twice).2)) =
       LRU.find k (LRU.entries (verifiedCache Sample.verified_twice)).
Proof.
  split; [vm_compute; reflexivity|].
  apply (@cache_hit_keeps_bindings Sample.codec Sample.crypto (Str Sample.signature)
           (Str Sample.pub) Sample.message Sample.verified_twice
           {| cached_publicKey := Str Sample.pub; cached_data := Sample.message |}).
  vm_compute; reflexivity.
Defined.

Lemma getPublic_checks_format_first_witness :
  truthy (Str "foo") = true ∧ Str "foo" ≠ Str "hex" ∧ Str "foo" ≠ Str "buffer" ∧
  getPublic None (Str "foo") = Throw (Error "Supported formats are `hex` and `buffer`").
Proof.
  split_and!; [reflexivity | discriminate | discriminate |].
  apply (getPublic_checks_format_first (Str "foo")); [reflexivity | discriminate..].
Defined.

(** ** Where the specification's wording does not hold *)

(** C3 as stated fails: an empty signature is not [null], yet
    [verifySignature] and [verifyMessage] throw on it instead of
    returning [false]; and so they do, with the [TypeError] of
    [Buffer.from], on data that are a number. *)
Lemma empty_signature_throws :
  non_null (Str "") = true ∧ non_null (Str Sample.pub) = true ∧
  non_null_data Sample.message = true ∧
  @verifySignature Sample.codec Sample.crypto (Str "") (Str Sample.pub) Sample.message
    = Throw (Error "No signature given") ∧
  (@verifyMessage Sample.codec Sample.crypto (Str "") (Str Sample.pub) Sample.message
     initial).1 = Throw (Error "No signature given") ∧
  non_null (Str Sample.signature) = true ∧ non_null_data (Other Fixture.five) = true ∧
  (∃ m, @verifySignature Sample.codec Sample.crypto (Str Sample.signature)
          (Str Sample.pub) (Other Fixture.five) = Throw (TypeError m)) ∧
  (∃ m, (@verifyMessage Sample.codec Sample.crypto (Str Sample.signature)
           (Str Sample.pub) (Direct (Other Fixture.five)) initial).1
        = Throw (TypeError m)).
Proof. split_and!; try (vm_compute; reflexivity); eexists; vm_compute; reflexivity. Qed.

(** On a cache hit, data cached as a string and supplied as a buffer
    are handed to [Buffer.compare], which throws: the one way a call
    that passes the guards can still throw. *)
Lemma cache_hit_on_string_with_buffer_throws :
  ∃ e, (@verifyMessage Sample.codec Sample.crypto (Str Sample.signature)
          (Str Sample.pub) (Buf (@utf8_encode Sample.codec "data data data"))
          Sample.verified_once).1 = Throw (TypeError e).
Proof. eexists. vm_compute. reflexivity. Qed.

(** C8 as stated fails: the empty string is a format other than
    ['hex'] and ['buffer'], and the call succeeds with the hexadecimal
    form. *)
Lemma empty_format_is_accepted :
  Str "" ≠ Str "hex" ∧ Str "" ≠ Str "buffer" ∧
  getPublic (Some Sample.key) (Str "") = Ok (Prim (Str Sample.pub)).
Proof. split_and!; [discriminate | discriminate | vm_compute; reflexivity]. Qed.

(** C9 as stated fails: a hit on an entry that is not the most recent
    one returns [true] and leaves the cache in another state, the
    entry having moved to the front. *)
Lemma cache_hit_changes_recency :
  let r := @verifyMessage Sample.codec Sample.crypto (Str Sample.signature)
             (Str Sample.pub) Sample.message Sample.verified_twice in
  LRU.find (Str Sample.signature) (LRU.entries (verifiedCache Sample.verified_twice)) =
    Some {| cached_publicKey := Str Sample.pub; cached_data := Sample.message |} ∧
  r.1 = Ok true ∧
  verifiedCache r.2 ≠ verifiedCache Sample.verified_twice ∧
  r.2 ≠ Sample.verified_twice.
Proof.
  split_and!; [vm_compute; reflexivity | vm_compute; reflexivity | |].
  - vm_compute. discriminate.
  - vm_compute. discriminate.
Qed.

(** C10 as stated fails: with no key pair and the empty string as
    format, the call does not throw the unsupported-format error; it
    fails reading a property of the missing key pair. *)
Lemma empty_format_reads_missing_key :
  Str "" ≠ Str "hex" ∧ Str "" ≠ Str "buffer" ∧
  getPublic None (Str "") =
    Throw (TypeError "Cannot read properties of undefined (reading 'public')").
Proof. split_and!; [discriminate | discriminate | vm_compute; reflexivity]. Qed.

(** * Further properties of the file *)

(** ** Hexadecimal strings *)

Lemma hex_digits_lowercase (b : byte) :
  lowercase_hex_digit (Hex.digit (Byte.to_N b / 16)) = true ∧
  lowercase_hex_digit (Hex.digit (Byte.to_N b mod 16)) = true.
Proof. destruct b; vm_compute; done. Qed.

Lemma hex_encode_lowercase (bs : list byte) : lowercase_hex (Hex.encode bs) = true.
Proof.
  induction bs as [|b rest IH]; [done|].
  destruct (hex_digits_lowercase b) as [Hhi Hlo].
  cbn [Hex.encode lowercase_hex]. rewrite Hhi, Hlo, IH. done.
Qed.

Lemma hex_encode_length (bs : list byte) :
  String.length (Hex.encode bs) = 2 * length bs.
Proof. induction bs as [|b rest IH]; cbn; [done|]. rewrite IH. lia. Qed.

(** ** Signing and verifying without the cache *)

Section SignVerifyFacts.
Context {codec : TextCodec} {lib : Crypto}.
Implicit Types (signature publicKey : prim) (data : JS.data) (key : PrivateKey).

(** X1: [verifySignature] throws in exactly two ways. It throws the
    error of a guard when one of its arguments is falsy (for the
    signature and the public key, strings: absent or empty; for the
    data: absent, the empty string, or another falsy value such as 0;
    an empty buffer is truthy), the error naming the first such
    argument in the order signature, public key, data. And it throws
    what [Buffer.from(data)], which runs before the [try], throws for
    truthy data it does not accept, such as a number. In every other
    case it returns a boolean. *)
Theorem verifySignature_throws_iff_missing signature publicKey data :
  ((∃ e, verifySignature signature publicKey data = Throw e) ↔
   truthy signature = false ∨ truthy publicKey = false ∨ truthy_data data = false ∨
   ∃ e, Buffer.from data = Throw e) ∧
  (truthy signature = false →
   verifySignature signature publicKey data = Throw (Error "No signature given")) ∧
  (truthy signature = true → truthy publicKey = false →
   verifySignature signature publicKey data =
     Throw (Error "Given publicKey was undefined")) ∧
  (truthy signature = true → truthy publicKey = true → truthy_data data = false →
   verifySignature signature publicKey data =
     Throw (Error "Given input data was undefined")) ∧
  (truthy signature = true → truthy publicKey = true → truthy_data data = true →
   ∀ e, Buffer.from data = Throw e →
   verifySignature signature publicKey data = Throw e) ∧
  (truthy signature = true → truthy publicKey = true →
   ∃ b, verifySignature signature publicKey (Buf []) = Ok b).
Proof.
  split_and!.
  - split.
    + intros [e He].
      destruct (truthy signature) eqn:Hs; [|by left].
      destruct (truthy publicKey) eqn:Hp; [|by right; left].
      destruct (truthy_data data) eqn:Hd; [|by right; right; left].
      right; right; right.
      unfold verifySignature in He. rewrite Hs, Hp, Hd in He. cbn in He.
      destruct (Buffer.from data) as [msg|e']; [done|eauto].
    + unfold verifySignature. intros [->|[Hp|[Hd|[e He]]]]; cbn; [eauto|..].
      * destruct (truthy signature); cbn; [|eauto]. rewrite Hp. cbn. eauto.
      * destruct (truthy signature); cbn; [|eauto].
        destruct (truthy publicKey); cbn; [|eauto]. rewrite Hd. cbn. eauto.
      * destruct (truthy signature); cbn; [|eauto].
        destruct (truthy publicKey); cbn; [|eauto].
        destruct (truthy_data data); cbn; [|eauto]. rewrite He. cbn. eauto.
  - unfold verifySignature. by intros ->.
  - unfold verifySignature. by intros -> ->.
  - unfold verifySignature. by intros -> -> ->.
  - unfold verifySignature. intros -> -> -> e ->. done.
  - unfold verifySignature. intros -> ->. cbn. eauto.
Qed.

(** X2: [signMessage] fails with ['No signing key given'] whenever the
    key is absent, whatever the data; with a key it fails with ['Given
    input data was undefined'] when the data are falsy (absent, the
    empty string, 0, ...); with a key and truthy data it fails in
    exactly two ways: with what [Buffer.from(data)] throws for data it
    does not accept, such as a number, or with the error of the
    library's [sign] on the data's bytes. *)
Theorem signMessage_failures key data :
  signMessage None data = Throw (Error "No signing key given") ∧
  (truthy_data data = false →
   signMessage (Some key) data = Throw (Error "Given input data was undefined")) ∧
  (truthy_data data = true →
   ∀ e, signMessage (Some key) data = Throw e ↔
        Buffer.from data = Throw e ∨
        ∃ msg, Buffer.from data = Ok msg ∧ sign key msg = Throw e).
Proof.
  split_and!; [done | |].
  - unfold signMessage. by intros ->.
  - intros Hd e. unfold signMessage. rewrite Hd. cbn.
    destruct (Buffer.from data) as [msg|e'] eqn:Hmsg; cbn.
    + destruct (sign key msg) as [sig|e'] eqn:Hsign; cbn.
      * split; [done|]. intros [?|(msg' & [= <-] & ?)]; congruence.
      * split.
        -- intros [= ->]. right. eauto.
        -- intros [?|(msg' & [= <-] & ?)]; congruence.
    + split.
      * intros [= ->]. by left.
      * intros [[= ->]|(? & ? & _)]; done.
Qed.

(** X3: what [signMessage] and [getPublic] hand out in hexadecimal is
    made of lowercase hexadecimal digits, two for each byte of the
    library's signature (of the public key), and [Buffer.from(_, 'hex')],
    by which [verifySignature] reads it, gives back exactly those
    bytes; for the public key they are the bytes [getPublic] returns
    with format ['buffer']. *)
Theorem hex_outputs_decode_back key data :
  (∃ pub, getPublic (Some key) Undefined = Ok (Prim (Str pub)) ∧
     lowercase_hex pub = true ∧
     String.length pub = 2 * length (public_bytes key) ∧
     Buffer.from_hex (Str pub) = Ok (public_bytes key) ∧
     getPublic (Some key) (Str "buffer") = Ok (Buf (public_bytes key))) ∧
  (∀ signature : string, signMessage (Some key) data = Ok signature →
     ∃ msg sig, Buffer.from data = Ok msg ∧ sign key msg = Ok sig ∧
       lowercase_hex signature = true ∧
       String.length signature = 2 * length sig ∧
       Buffer.from_hex (Str signature) = Ok sig).
Proof.
  split.
  - exists (Hex.encode (public_bytes key)). split_and!; [done | | | | done].
    + apply hex_encode_lowercase.
    + apply hex_encode_length.
    + cbn. by rewrite hex_decode_encode.
  - intros signature. unfold signMessage.
    destruct (truthy_data data); cbn; [|done].
    destruct (Buffer.from data) as [msg|]; cbn; [|done].
    destruct (sign key msg) as [sig|] eqn:Hsign; cbn; [|done].
    intros [= <-]. exists msg, sig. split_and!; [done..| | |].
    + apply hex_encode_lowercase.
    + apply hex_encode_length.
    + cbn. by rewrite hex_decode_encode.
Qed.

(** X4: the wrappers add nothing to the library's verdict. When the
    library signs the data's bytes with a key, and neither the
    signature nor the key's public bytes are empty, [verifySignature]
    applied to what [signMessage] and [getPublic] return answers what
    the library's [verify] answers for the key's public bytes, the
    same message bytes and the same signature bytes, a failure of the
    library counting as [false]. *)
Theorem verify_of_signed_is_library_verdict key data msg sig :
  truthy_data data = true →
  Buffer.from data = Ok msg →
  sign key msg = Ok sig →
  sig ≠ [] → public_bytes key ≠ [] →
  ∃ (signature : string) pub,
    signMessage (Some key) data = Ok signature ∧
    getPublic (Some key) Undefined = Ok (Prim (Str pub)) ∧
    verifySignature (Str signature) (Str pub) data =
      Ok (try_or false
            (attempt pubKey <- unmarshalPubKey (public_bytes key);
             verify pubKey msg sig)).
Proof.
  intros Hd Hmsg Hsign Hsig Hpub.
  exists (Hex.encode sig), (Hex.encode (public_bytes key)). split_and!.
  - unfold signMessage. rewrite Hd, Hmsg. cbn. by rewrite Hsign.
  - done.
  - unfold verifySignature.
    rewrite (hex_encode_truthy _ Hsig), (hex_encode_truthy _ Hpub), Hd, Hmsg. cbn.
    unfold guarded_check. cbn. rewrite !hex_decode_encode. done.
Qed.

(** X5: for signing and for verifying without the cache, a non-empty
    string and the buffer of its encoded bytes are the same data. *)
Theorem string_and_its_bytes_alike signature publicKey key (text : string) :
  text ≠ "" →
  verifySignature signature publicKey (Prim (Str text)) =
    verifySignature signature publicKey (Buf (utf8_encode text)) ∧
  signMessage (Some key) (Prim (Str text)) =
    signMessage (Some key) (Buf (utf8_encode text)).
Proof.
  intros Ht. unfold verifySignature, signMessage. cbn.
  rewrite (bool_decide_eq_false_2 _ Ht). done.
Qed.

End SignVerifyFacts.

(** ** The cached verification as callers see it *)

Section CachedVerificationFacts.
Context {codec : TextCodec} {lib : Crypto}.
Implicit Types (signature publicKey : prim) (data : argument) (s : vstate).

(** The capacity of the cache never changes. *)
Lemma reachable_size s : reachable s → LRU.size (verifiedCache s) = 1000.
Proof.
  induction 1 as [|s sig pk d _ IH|s m _ IH _]; [done| |done].
  destruct (LRU.find sig (LRU.entries (verifiedCache s))) as [cached|] eqn:Hf.
  - by rewrite (verifyMessage_hit _ _ _ _ _ Hf).
  - rewrite (verifyMessage_miss _ _ _ _ Hf). cbn.
    by destruct (verifySignature sig pk (view (heap s) d)) as [[|]|].
Qed.

(** In a container that holds anything at all, a key just put is
    found with the value put. *)
Lemma find_put_found {K V} `{EqDecision K} (k : K) (v : V) (c : LRU.t K V) :
  LRU.size c ≠ 0 → LRU.find k (LRU.entries (LRU.put k v c)) = Some v.
Proof.
  cbn. destruct (LRU.size c) as [|n]; [done|]. intros _. cbn.
  by rewrite decide_True.
Qed.

(** Data that pass the guard and have a string form compare equal to
    themselves. *)
Lemma same_data_refl (d : JS.data) :
  truthy_data d = true →
  (∀ v, d = Other v → ∃ text, other_text v = Ok text) →
  same_data d d.
Proof.
  intros Hd Hv. destruct d as [[| |t]|b|v]; cbn in *; try done.
  - by exists t.
  - destruct (Hv v eq_refl) as [text Ht]. by exists text.
Qed.

(** Without the cache, a non-empty string verifies as its bytes do. *)
Lemma verifySignature_string_bytes signature publicKey (text : string) :
  text ≠ "" →
  verifySignature signature publicKey (Prim (Str text)) =
  verifySignature signature publicKey (Buf (utf8_encode text)).
Proof.
  intros Ht. unfold verifySignature. cbn. by rewrite (bool_decide_eq_false_2 _ Ht).
Qed.

(** X6: a verification that succeeded succeeds again. If a call of
    [verifyMessage] returns [true], the same call made next returns
    [true] as well, and makes no cryptographic check (for data that
    are neither a string nor a [Buffer], provided their [toString]
    returns). *)
Theorem verifyMessage_repeat signature publicKey data s :
  reachable s →
  (verifyMessage signature publicKey data s).1 = Ok true →
  (∀ v, view (heap s) data = Other v → ∃ text, other_text v = Ok text) →
  let once := (verifyMessage signature publicKey data s).2 in
  let again := verifyMessage signature publicKey data once in
  again.1 = Ok true ∧ checks again.2 = checks once.
Proof.
  intros Hreach Htrue Htext once again. subst again once.
  destruct (LRU.find signature (LRU.entries (verifiedCache s))) as [cached|] eqn:Hf.
  - rewrite (verifyMessage_hit _ _ _ _ _ Hf) in *. cbn [fst snd] in *.
    erewrite (verifyMessage_hit _ _ _ _ cached).
    + done.
    + cbn. by rewrite decide_True.
  - rewrite (verifyMessage_miss _ _ _ _ Hf) in *. cbn [fst snd] in *.
    rewrite Htrue.
    apply verifySignature_guards in Htrue as (_ & _ & Hd).
    erewrite (verifyMessage_hit _ _ _ _
                {| cached_publicKey := publicKey; cached_data := data |}).
    + cbn. unfold strict_eq. rewrite bool_decide_eq_true_2 by done.
      split; [|done]. apply compare_true. by apply same_data_refl.
    + cbn [verifiedCache]. apply find_put_found. by rewrite reachable_size.
Qed.

(** X7: [verifyMessage] never returns [true] without a successful
    check behind it. When it returns [true], a check of this signature
    and this public key for which [verifySignature] answered [true] is
    on record. The data checked were the data supplied as they are
    now, or the cached object, which now compares equal to the data
    supplied; what was checked of the cached object is what it is now
    when it is a value the caller cannot write to. When the caller
    has written to none of its objects, [verifySignature] answered
    [true] for data that are the data supplied or compare equal to
    them. (After a caller's write to a cached [Buffer] the bytes
    accepted need not be bytes that were ever checked.) *)
Theorem verifyMessage_true_is_backed signature publicKey data s :
  reachable s →
  (verifyMessage signature publicKey data s).1 = Ok true →
  let after := (verifyMessage signature publicKey data s).2 in
  (∃ c, c ∈ checks after ∧
     checked_signature c = signature ∧ checked_publicKey c = publicKey ∧
     outcome c = Ok true ∧
     verifySignature signature publicKey (checked_data c) = Ok true ∧
     (checked_data c = view (heap s) data ∨
      (same_data (view (heap s) (checked_argument c)) (view (heap s) data) ∧
       ∀ d, checked_argument c = Direct d → checked_data c = d))) ∧
  (undisturbed s →
   ∃ verified,
     verifySignature signature publicKey verified = Ok true ∧
     (verified = view (heap s) data ∨ same_data verified (view (heap s) data))).
Proof.
  intros Hreach Htrue after. subst after.
  destruct (LRU.find signature (LRU.entries (verifiedCache s))) as [cached|] eqn:Hf.
  - rewrite (verifyMessage_hit _ _ _ _ _ Hf) in *. cbn [fst snd checks] in *.
    unfold strict_eq in Htrue. case_bool_decide as Hpk; [|done].
    apply compare_true in Htrue.
    pose proof (find_elem_of _ _ _ Hf) as Hin. split.
    + destruct (reachable_entries_verified _ _ _ Hreach Hin)
        as (seen & Hok & Hlog & Hdirect).
      rewrite Hpk in Hok, Hlog.
      eexists. split; [exact Hlog|]. cbn. split_and!; [done..|].
      right. split; [done|]. exact Hdirect.
    + intros Hquiet.
      destruct (undisturbed_entries_verified _ _ _ Hquiet Hin) as [Hok _].
      rewrite Hpk in Hok. eexists. split; [exact Hok|]. by right.
  - rewrite (verifyMessage_miss _ _ _ _ Hf) in *. cbn [fst snd checks] in *.
    split.
    + eexists. split; [apply elem_of_app; right; left|]. cbn.
      split_and!; [done..|]. by left.
    + intros _. eexists. split; [exact Htrue|]. by left.
Qed.

(** X19: a cached [Buffer] is trusted whatever it holds. When the
    data cached under a signature are a [Buffer] the caller holds,
    a call with the cached public key and that same [Buffer] returns
    [true] without a check, whatever bytes the [Buffer] holds at the
    time of the call. *)
Theorem cached_buffer_answers_true signature publicKey (l : loc) (bytes : list byte) s :
  LRU.find signature (LRU.entries (verifiedCache s)) =
    Some {| cached_publicKey := publicKey; cached_data := Shared l |} →
  heap s !! l = Some (BufferObject bytes) →
  let r := verifyMessage signature publicKey (Shared l) s in
  r.1 = Ok true ∧ checks r.2 = checks s.
Proof.
  intros Hf Hl r. subst r. rewrite (verifyMessage_hit _ _ _ _ _ Hf). cbn.
  unfold strict_eq. rewrite bool_decide_eq_true_2 by done.
  split; [|done]. apply compare_true. unfold same_data. by rewrite Hl.
Qed.

(** X8: the cache does not take a string and its bytes for the same
    data. When the data cached under a signature are a string, a call
    with the cached public key and a buffer as data throws a
    [TypeError], for every buffer, also for the bytes of that string,
    which [verifySignature] accepts. *)
Theorem cache_hit_buffer_against_string_throws signature publicKey
    (text : string) data (bytes : list byte) s :
  reachable s →
  LRU.find signature (LRU.entries (verifiedCache s)) =
    Some {| cached_publicKey := publicKey; cached_data := Direct (Prim (Str text)) |} →
  view (heap s) data = Buf bytes →
  (∃ m, (verifyMessage signature publicKey data s).1 = Throw (TypeError m)) ∧
  verifySignature signature publicKey (Buf (utf8_encode text)) = Ok true.
Proof.
  intros Hreach Hf Hview. split.
  - rewrite (verifyMessage_hit _ _ _ _ _ Hf). cbn. unfold strict_eq.
    rewrite bool_decide_eq_true_2 by done. rewrite Hview. cbn. eauto.
  - destruct (reachable_entries_verified _ _ _ Hreach (find_elem_of _ _ _ Hf))
      as (seen & Hok & _ & Hdirect). cbn in *.
    rewrite (Hdirect _ eq_refl) in Hok.
    rewrite <- verifySignature_string_bytes; [done|].
    apply verifySignature_guards in Hok as (_ & _ & Hd). cbn in Hd.
    intros ->. done.
Qed.

(** X9: on a cache hit the public key is compared as a string. A
    public key spelled differently from the cached one gives [false]
    whatever the data, also when it reads as the same bytes
    (hexadecimal digits in the other case, say), so that
    [verifySignature] accepts it for the data that were checked when
    the entry was stored. *)
Theorem cache_hit_rejects_other_spelling signature pubA pubB (cached data : argument) s :
  reachable s →
  LRU.find signature (LRU.entries (verifiedCache s)) =
    Some {| cached_publicKey := pubA; cached_data := cached |} →
  pubB ≠ pubA → truthy pubB = true →
  Buffer.from_hex pubB = Buffer.from_hex pubA →
  (∃ seen,
     verifySignature signature pubA seen = Ok true ∧
     verifySignature signature pubB seen = Ok true ∧
     (∀ d, cached = Direct d → seen = d)) ∧
  (verifyMessage signature pubB data s).1 = Ok false.
Proof.
  intros Hreach Hf Hne HB Hbytes. split.
  - destruct (reachable_entries_verified _ _ _ Hreach (find_elem_of _ _ _ Hf))
      as (seen & Hok & _ & Hdirect). cbn in *.
    exists seen. split_and!; [done| |done].
    pose proof (verifySignature_guards _ _ _ _ Hok) as (Hs & HA & Hd).
    unfold verifySignature in *. rewrite Hs, HA, HB, Hd in *. cbn in *.
    unfold guarded_check in *. by rewrite Hbytes.
  - rewrite (verifyMessage_hit _ _ _ _ _ Hf). cbn. unfold strict_eq.
    by rewrite bool_decide_eq_false_2.
Qed.

(** X10: a verification that fails is not remembered. When the
    signature is not cached and [verifySignature] does not answer
    [true], the call returns what [verifySignature] returns and leaves
    the cache alone, and the same call made next does it all again:
    the same result, the cache as before, one more check on record. *)
Theorem failed_verification_is_rechecked signature publicKey data s :
  LRU.find signature (LRU.entries (verifiedCache s)) = None →
  verifySignature signature publicKey (view (heap s) data) ≠ Ok true →
  let first := verifyMessage signature publicKey data s in
  let second := verifyMessage signature publicKey data first.2 in
  let entry := {| checked_signature := signature; checked_publicKey := publicKey;
                  checked_argument := data;
                  checked_data := view (heap s) data;
                  outcome := verifySignature signature publicKey (view (heap s) data) |} in
  first.1 = verifySignature signature publicKey (view (heap s) data) ∧
  second.1 = first.1 ∧
  verifiedCache second.2 = verifiedCache s ∧
  checks second.2 = (checks s ++ [entry; entry])%list.
Proof.
  intros Hf Hneg first second entry. subst second first entry.
  assert (Hkeep : ∀ s', verifiedCache s' = verifiedCache s → heap s' = heap s →
            verifyMessage signature publicKey data s' =
              (verifySignature signature publicKey (view (heap s) data),
               {| verifiedCache := verifiedCache s;
                  checks := (checks s' ++ [ {| checked_signature := signature;
                                               checked_publicKey := publicKey;
                                               checked_argument := data;
                                               checked_data := view (heap s) data;
                                               outcome := verifySignature signature
                                                 publicKey (view (heap s) data) |} ])%list;
                  heap := heap s |})).
  { intros s' Hc Hh. rewrite verifyMessage_miss by (by rewrite Hc). cbn.
    rewrite Hc, Hh.
    by destruct (verifySignature signature publicKey (view (heap s) data)) as [[|]|]. }
  rewrite (Hkeep s eq_refl eq_refl). cbn [fst snd]. rewrite Hkeep by done. cbn.
  by rewrite <- app_assoc.
Qed.

(** X11: on a cache hit the guards of [verifySignature] are not
    reached. With an absent or empty public key a call whose signature
    is cached returns [false], where [verifySignature] throws ['Given
    publicKey was undefined']; with the cached public key and absent
    data it throws, where the cached data are a string or a [Buffer] a
    [TypeError], not ['Given input data was undefined']. *)
Theorem cache_hit_skips_guards signature publicKey data s cached :
  reachable s →
  LRU.find signature (LRU.entries (verifiedCache s)) = Some cached →
  (truthy publicKey = false →
   (verifyMessage signature publicKey data s).1 = Ok false ∧
   verifySignature signature publicKey (view (heap s) data) =
     Throw (Error "Given publicKey was undefined")) ∧
  (publicKey = cached_publicKey cached →
   view (heap s) data = Prim Undefined ∨ view (heap s) data = Prim Null →
   (∃ e, (verifyMessage signature publicKey data s).1 = Throw e ∧
      ((∀ v, view (heap s) (cached_data cached) ≠ Other v) → ∃ m, e = TypeError m)) ∧
   verifySignature signature publicKey (view (heap s) data) =
     Throw (Error "Given input data was undefined")).
Proof.
  intros Hreach Hf.
  destruct (reachable_entries_verified _ _ _ Hreach (find_elem_of _ _ _ Hf))
    as (seen & Hok & _).
  pose proof (verifySignature_guards _ _ _ _ Hok) as (Hs & Hp & _).
  rewrite (verifyMessage_hit _ _ _ _ _ Hf). cbn [fst]. split.
  - intros Hfalsy. split.
    + unfold strict_eq. rewrite bool_decide_eq_false_2; [done|].
      intros Heq. rewrite Heq in Hp. congruence.
    + unfold verifySignature. by rewrite Hs, Hfalsy.
  - intros -> Hdata. split.
    + unfold strict_eq. rewrite bool_decide_eq_true_2 by done.
      unfold compare.
      assert (Hnb : isBuffer (view (heap s) data) = false)
        by (by destruct Hdata as [-> | ->]).
      assert (Hts : ∃ m, Buffer.toString (view (heap s) data) = Throw (TypeError m))
        by (destruct Hdata as [-> | ->]; cbn; eauto).
      destruct Hts as [m Hts]. rewrite Hnb, Hts.
      destruct (Buffer.toString (view (heap s) (cached_data cached)))
        as [text|e] eqn:Htext; cbn.
      * eauto.
      * exists e. split; [done|]. intros Hplain.
        destruct (view (heap s) (cached_data cached)) as [[| |t]|b|v]; cbn in Htext;
          [injection Htext as <-; eauto..|done|done|by destruct (Hplain v)].
    + unfold verifySignature. rewrite Hs, Hp. by destruct Hdata as [-> | ->].
Qed.

End CachedVerificationFacts.

(** ** The key store as callers see it *)

Section KeyStoreUse.
Context {lib : Crypto} {backing : Storage}.
Implicit Types (id : prim) (i j : string) (s : kstate).

(** The steps of [createKey]: a key pair is generated, loaded from its
    record and written; a failure of the library's loading ends the
    call before the write, a failure of the write after it. *)
Lemma createKey_steps i s :
  i ≠ "" →
  createKey (Str i) s =
    let pair := (generateKeyPair (random s)).1 in
    let r := (generateKeyPair (random s)).2 in
    match unmarshalPrivateKey (key_record pair) with
    | Throw e =>
        (Throw e, {| storage := storage s; random := r; console := console s;
                     ops := ops s |})
    | Ok keys =>
        let w := storage_put ("private_" ++ i) (private_bytes keys) (storage s) in
        (match w.1 with Ok _ => Ok keys | Throw e => Throw e end,
         {| storage := w.2; random := r; console := console s;
            ops := (ops s ++ [Put ("private_" ++ i) (private_bytes keys)])%list |})
    end.
Proof.
  intros Hi. unfold createKey. rewrite (truthy_Str _ Hi).
  change ("private_" ++ i) with (private_key_of (Str i)).
  unfold bind, generate, lift, addKey, put, ret, marshal. cbn.
  destruct (generateKeyPair (random s)) as [pair r]. cbn.
  destruct (unmarshalPrivateKey (key_record pair)) as [keys|e]; cbn; [|done].
  destruct (storage_put (private_key_of (Str i)) (private_bytes keys) (storage s))
    as [[[]|e] st]; done.
Qed.

(** An id that passes the guard is a non-empty string. *)
Lemma truthy_id id : truthy id = true → ∃ i, id = Str i ∧ i ≠ "".
Proof.
  destruct id as [| |i]; cbn; [done..|]. case_bool_decide; [done|]. eauto.
Qed.

(** Different ids have different storage keys. *)
Lemma private_key_of_inj i j : "private_" ++ i = "private_" ++ j → i = j.
Proof. cbn. intros [= Heq]. exact Heq. Qed.

(** X12: a key that was created is there. After a [createKey] that
    returned, on a storage that reads back what was written, [hasKey]
    for the same id returns [true] and [getKey] returns what the
    library loads from the returned key's private bytes. *)
Theorem createKey_then_hasKey id s keys s1 :
  StorageLaws →
  createKey id s = (Ok keys, s1) →
  (hasKey id s1).1 = Ok true ∧
  (getKey id s1).1 = (attempt key <- unmarshal (marshal keys); Ok (Some key)).
Proof.
  intros SL Hcreate.
  assert (Hid : truthy id = true).
  { unfold createKey in Hcreate. by destruct (truthy id). }
  apply truthy_id in Hid as (i & -> & Hi).
  rewrite (createKey_steps _ _ Hi) in Hcreate. cbn in Hcreate.
  destruct (unmarshalPrivateKey _) as [keys'|]; [|done].
  destruct (storage_put _ _ _).1 eqn:Hput; [|done].
  injection Hcreate as -> <-.
  rewrite (hasKey_read _ _ Hi), (getKey_read _ _ Hi). cbn.
  rewrite (get_after_put SL). unfold marshal. cbn.
  by destruct (unmarshal (private_bytes keys)).
Qed.

(** X13: looking a key up only reads. For a non-empty id, [getKey] and
    [hasKey] each make one storage call, a read of ["private_" + id],
    never a write, and draw no randomness; [getKey] writes nothing with
    [console.error], and [hasKey] writes one line exactly when the read
    throws. *)
Theorem lookups_only_read i s :
  i ≠ "" →
  let read := storage_get ("private_" ++ i) (storage s) in
  let g := (getKey (Str i) s).2 in
  let h := (hasKey (Str i) s).2 in
  (ops g = (ops s ++ [Get ("private_" ++ i)])%list ∧ storage g = read.2 ∧
   random g = random s ∧ console g = console s) ∧
  (ops h = (ops s ++ [Get ("private_" ++ i)])%list ∧ storage h = read.2 ∧
   random h = random s ∧
   console h = match read.1 with
               | Ok _ => console s
               | Throw _ =>
                   (console s ++ ["Error: ENOENT: no such file or directory"])%list
               end).
Proof.
  intros Hi read g h. subst g h read.
  rewrite (getKey_read _ _ Hi), (hasKey_read _ _ Hi). cbn.
  destruct (storage_get ("private_" ++ i) (storage s)).1
    as [[| |bytes|[|] loads]|e]; done.
Qed.

(** X14: a stored record that is not a private key. When the bytes
    read under ["private_" + id] are bytes the library cannot load,
    [getKey] throws the library's error (only the storage read is
    inside its [try]), while [hasKey] returns [true]. *)
Theorem record_that_does_not_load i s bytes e :
  i ≠ "" →
  (storage_get ("private_" ++ i) (storage s)).1 = Ok (Bytes bytes) →
  unmarshal bytes = Throw e →
  (getKey (Str i) s).1 = Throw e ∧ (hasKey (Str i) s).1 = Ok true.
Proof.
  intros Hi Hread Hload.
  rewrite (getKey_read _ _ Hi), (hasKey_read _ _ Hi). cbn.
  by rewrite Hread, Hload.
Qed.

(** X15: how [createKey] fails for a non-empty id. When the library
    cannot load the record of the pair it generated, the call throws
    the library's error and the storage has not been called; when the
    write throws, the call throws that error, the write having been
    attempted once. Either way the randomness of the generation has
    been drawn. *)
Theorem createKey_failures i s e :
  i ≠ "" →
  let pair := (generateKeyPair (random s)).1 in
  let after := createKey (Str i) s in
  (unmarshalPrivateKey (key_record pair) = Throw e →
   after.1 = Throw e ∧ storage after.2 = storage s ∧ ops after.2 = ops s ∧
   random after.2 = (generateKeyPair (random s)).2) ∧
  (∀ keys,
     unmarshalPrivateKey (key_record pair) = Ok keys →
     (storage_put ("private_" ++ i) (private_bytes keys) (storage s)).1 = Throw e →
     after.1 = Throw e ∧
     ops after.2 = (ops s ++ [Put ("private_" ++ i) (private_bytes keys)])%list ∧
     random after.2 = (generateKeyPair (random s)).2).
Proof.
  intros Hi pair after. subst after pair.
  rewrite (createKey_steps _ _ Hi). cbn. split.
  - by intros ->.
  - intros keys -> Hput. cbn. by rewrite Hput.
Qed.

(** X16: creating a key for one id leaves the others alone. On a
    storage where a write under one key does not change what is read
    under another, [getKey] and [hasKey] for a non-empty id answer
    after a [createKey] for a different id, whether it returned or
    threw, what they answered before. *)
Theorem createKey_leaves_other_ids i j s :
  StorageFrame →
  i ≠ "" → j ≠ "" → i ≠ j →
  let s1 := (createKey (Str i) s).2 in
  (getKey (Str j) s1).1 = (getKey (Str j) s).1 ∧
  (hasKey (Str j) s1).1 = (hasKey (Str j) s).1.
Proof.
  intros SF Hi Hj Hij s1.
  assert (Hread : (storage_get ("private_" ++ j) (storage s1)).1 =
                  (storage_get ("private_" ++ j) (storage s)).1).
  { subst s1. rewrite (createKey_steps _ _ Hi). cbn.
    destruct (unmarshalPrivateKey _) as [keys|]; [|done]. cbn.
    apply (put_frame SF). intros Heq. by apply private_key_of_inj in Heq. }
  rewrite !(getKey_read _ _ Hj), !(hasKey_read _ _ Hj). cbn.
  rewrite Hread.
  by destruct (storage_get ("private_" ++ j) (storage s)).1
    as [[| |bytes|[|] loads]|].
Qed.

(** X17: [addKey] does not check its id. Called with [undefined] (with
    [null]) it writes, like any other call, one record, and it is the
    record of the id ['undefined'] (['null']): on a storage that reads
    back what was written, [hasKey] for that id then returns [true]
    and [getKey] what the library loads from the private key given. *)
Theorem addKey_takes_an_absent_id id (name : string) (key : key_material) s :
  StorageLaws →
  (id = Undefined ∧ name = "undefined") ∨ (id = Null ∧ name = "null") →
  let added := addKey id key s in
  added.1 = Ok () ∧
  ops added.2 = (ops s ++ [Put ("private_" ++ name) (privateKey key)])%list ∧
  (hasKey (Str name) added.2).1 = Ok true ∧
  (getKey (Str name) added.2).1 =
    (attempt loaded <- unmarshal (privateKey key); Ok (Some loaded)).
Proof.
  intros SL Hid added.
  assert (Hkey : private_key_of id = "private_" ++ name).
  { by destruct Hid as [[-> ->]|[-> ->]]. }
  assert (Hname : name ≠ "").
  { by destruct Hid as [[_ ->]|[_ ->]]. }
  subst added. unfold addKey, put. rewrite Hkey.
  pose proof (put_succeeds SL ("private_" ++ name) (privateKey key) (storage s)) as Hput.
  pose proof (get_after_put SL ("private_" ++ name) (privateKey key) (storage s)) as Hget.
  destruct (storage_put ("private_" ++ name) (privateKey key) (storage s)) as [w st].
  cbn in *. subst w. split_and!; [done..| |].
  - rewrite (hasKey_read _ _ Hname). cbn. by rewrite Hget.
  - rewrite (getKey_read _ _ Hname). cbn. rewrite Hget.
    by destruct (unmarshal (privateKey key)).
Qed.

(** X18: [hasKey] and [getKey] agree, but for one kind of record. For
    a non-empty id and one state of the storage: when [hasKey] returns
    [false], [getKey] returns [undefined]; when [getKey] returns a key
    pair or throws, [hasKey] returns [true]; and [hasKey] returns
    [true] while [getKey] returns [undefined] exactly when the value
    stored is falsy without being [undefined] or [null], as the empty
    string is ([hasKey] tests [!== undefined && !== null], [getKey]
    tests [!storedKey]). *)
Theorem hasKey_agrees_with_getKey i s :
  i ≠ "" →
  let read := (storage_get ("private_" ++ i) (storage s)).1 in
  ((hasKey (Str i) s).1 = Ok false → (getKey (Str i) s).1 = Ok None) ∧
  ((getKey (Str i) s).1 ≠ Ok None → (hasKey (Str i) s).1 = Ok true) ∧
  ((hasKey (Str i) s).1 = Ok true ∧ (getKey (Str i) s).1 = Ok None ↔
   ∃ loads, read = Ok (Foreign false loads)).
Proof.
  intros Hi read. subst read.
  rewrite (getKey_read _ _ Hi), (hasKey_read _ _ Hi). cbn.
  destruct (storage_get ("private_" ++ i) (storage s)).1
    as [[| |bytes|[|] loads]|e]; cbn.
  - split_and!; [done..|]. split; [by intros [? _]|by intros [? ?]].
  - split_and!; [done..|]. split; [by intros [? _]|by intros [? ?]].
  - split_and!; [done..|]. split; [|by intros [? ?]].
    intros [_ Hg]. by destruct (unmarshal bytes).
  - split_and!; [done..|]. split; [|by intros [? ?]].
    intros [_ Hg]. by destruct loads.
  - split_and!; [done..|]. split; [|done]. intros _. by eexists.
  - split_and!; [done..|]. split; [by intros [? _]|by intros [? ?]].
Qed.

End KeyStoreUse.

(** ** The further properties on concrete inputs *)

Lemma plain_storage_laws : @StorageLaws Fixture.plain.
Proof.
  split; cbn; [done | |done].
  intros k v st. by rewrite lookup_insert_eq.
Qed.

Lemma plain_storage_frame : @StorageFrame Fixture.plain.
Proof. split; cbn. intros k k' v st Hne. by rewrite lookup_insert_ne. Qed.

Lemma verified_once_reachable : @reachable Sample.codec Sample.crypto Sample.verified_once.
Proof.
  exact (reachable_call initial (Str Sample.signature) (Str Sample.pub)
           Sample.message reachable_initial).
Qed.

Lemma verifySignature_throws_iff_missing_witness :
  truthy (Str "") = false ∧
  @verifySignature Sample.codec Sample.crypto (Str "") (Str Sample.pub) Sample.message
    = Throw (Error "No signature given") ∧
  truthy (Str Sample.signature) = true ∧ truthy Null = false ∧
  @verifySignature Sample.codec Sample.crypto (Str Sample.signature) Null Sample.message
    = Throw (Error "Given publicKey was undefined") ∧
  truthy (Str Sample.pub) = true ∧ truthy_data (Other Fixture.five) = true ∧
  @verifySignature Sample.codec Sample.crypto (Str Sample.signature) (Str Sample.pub)
    (Other Fixture.five) = Throw (TypeError "The first argument must be of type string or an instance of Buffer, ArrayBuffer, or Array or an Array-like Object. Received type number (5)").
Proof.
  destruct (@verifySignature_throws_iff_missing Sample.codec Sample.crypto
              (Str "") (Str Sample.pub) Sample.message) as (_ & Hsig & _).
  destruct (@verifySignature_throws_iff_missing Sample.codec Sample.crypto
              (Str Sample.signature) Null Sample.message) as (_ & _ & Hpub & _).
  destruct (@verifySignature_throws_iff_missing Sample.codec Sample.crypto
              (Str Sample.signature) (Str Sample.pub) (Other Fixture.five))
    as (_ & _ & _ & _ & Hfrom & _).
  split_and!; [reflexivity | apply Hsig; reflexivity | reflexivity | reflexivity
              | apply Hpub; reflexivity | reflexivity | reflexivity |].
  apply Hfrom; reflexivity.
Defined.

Lemma signMessage_failures_witness :
  truthy_data (Prim Undefined) = false ∧
  @signMessage Sample.codec Sample.crypto (Some Sample.key) (Prim Undefined)
    = Throw (Error "Given input data was undefined") ∧
  truthy_data (Other Fixture.five) = true ∧
  ∃ e, @signMessage Sample.codec Sample.crypto (Some Sample.key) (Other Fixture.five)
         = Throw (TypeError e).
Proof.
  destruct (@signMessage_failures Sample.codec Sample.crypto Sample.key
              (Prim Undefined)) as (_ & Hfalsy & _).
  destruct (@signMessage_failures Sample.codec Sample.crypto Sample.key
              (Other Fixture.five)) as (_ & _ & Htruthy).
  split_and!; [reflexivity | apply Hfalsy; reflexivity | reflexivity |].
  eexists. apply (Htruthy eq_refl). left. reflexivity.
Defined.

Lemma hex_outputs_decode_back_witness :
  @signMessage Sample.codec Sample.crypto (Some Sample.key) Sample.message
    = Ok Sample.signature ∧
  ∃ msg sig,
    @Buffer.from Sample.codec Sample.message = Ok msg ∧
    @sign Sample.crypto Sample.key msg = Ok sig ∧
    lowercase_hex Sample.signature = true ∧
    String.length Sample.signature = 2 * length sig ∧
    Buffer.from_hex (Str Sample.signature) = Ok sig.
Proof.
  split; [vm_compute; reflexivity|].
  apply (@hex_outputs_decode_back Sample.codec Sample.crypto Sample.key Sample.message).
  vm_compute; reflexivity.
Defined.

Lemma verify_of_signed_is_library_verdict_witness :
  let msg := @utf8_encode Sample.codec "data data data" in
  let sig := Sample.tag (public_bytes Sample.key) msg in
  truthy_data Sample.message = true ∧
  @Buffer.from Sample.codec Sample.message = Ok msg ∧
  @sign Sample.crypto Sample.key msg = Ok sig ∧
  sig ≠ [] ∧ public_bytes Sample.key ≠ [] ∧
  ∃ (signature : string) pub,
    @signMessage Sample.codec Sample.crypto (Some Sample.key) Sample.message
      = Ok signature ∧
    getPublic (Some Sample.key) Undefined = Ok (Prim (Str pub)) ∧
    @verifySignature Sample.codec Sample.crypto (Str signature) (Str pub) Sample.message =
      Ok (try_or false
            (attempt pubKey <- @unmarshalPubKey Sample.crypto (public_bytes Sample.key);
             @verify Sample.crypto pubKey msg sig)).
Proof.
  intros msg sig.
  split_and!; [reflexivity | reflexivity | reflexivity | discriminate | discriminate |].
  apply (@verify_of_signed_is_library_verdict Sample.codec Sample.crypto
           Sample.key Sample.message msg sig);
    [reflexivity | reflexivity | reflexivity | discriminate | discriminate].
Defined.

Lemma string_and_its_bytes_alike_witness :
  "data" ≠ "" ∧
  @verifySignature Sample.codec Sample.crypto (Str Sample.signature) (Str Sample.pub)
    (Prim (Str "data")) =
  @verifySignature Sample.codec Sample.crypto (Str Sample.signature) (Str Sample.pub)
    (Buf (@utf8_encode Sample.codec "data")).
Proof.
  split; [discriminate|].
  apply (@string_and_its_bytes_alike Sample.codec Sample.crypto
           (Str Sample.signature) (Str Sample.pub) Sample.key "data").
  discriminate.
Defined.

Lemma kept_reachable : @reachable Sample.codec Sample.crypto Fixture.kept.
Proof.
  apply (reachable_caller initial _ reachable_initial).
  by apply caller_creates.
Qed.

Lemma verified_kept_reachable :
  @reachable Sample.codec Sample.crypto Fixture.verified_kept.
Proof.
  exact (reachable_call Fixture.kept (Str Sample.signature) (Str Sample.pub)
           (Shared 0) kept_reachable).
Qed.

Lemma overwritten_reachable : @reachable Sample.codec Sample.crypto Fixture.overwritten.
Proof.
  apply (reachable_caller Fixture.verified_kept _ verified_kept_reachable).
  by apply (caller_writes _ 0 Fixture.message_bytes Fixture.forged_bytes).
Qed.

Lemma verifyMessage_repeat_witness :
  @reachable Sample.codec Sample.crypto Fixture.kept ∧
  (@verifyMessage Sample.codec Sample.crypto (Str Sample.signature) (Str Sample.pub)
     (Shared 0) Fixture.kept).1 = Ok true ∧
  (∀ v, view (heap Fixture.kept) (Shared 0) = Other v → ∃ text, other_text v = Ok text) ∧
  (@verifyMessage Sample.codec Sample.crypto (Str Sample.signature) (Str Sample.pub)
     (Shared 0) Fixture.verified_kept).1 = Ok true.
Proof.
  assert (Hbuffer : ∀ v, view (heap Fixture.kept) (Shared 0) = Other v →
                         ∃ text, other_text v = Ok text) by (intros v; discriminate).
  split_and!; [exact kept_reachable | vm_compute; reflexivity | exact Hbuffer |].
  apply (@verifyMessage_repeat Sample.codec Sample.crypto (Str Sample.signature)
           (Str Sample.pub) (Shared 0) Fixture.kept kept_reachable);
    [vm_compute; reflexivity | exact Hbuffer].
Defined.

Lemma verifyMessage_true_is_backed_witness :
  @reachable Sample.codec Sample.crypto Sample.verified_once ∧
  (@verifyMessage Sample.codec Sample.crypto (Str Sample.signature) (Str Sample.pub)
     Sample.message Sample.verified_once).1 = Ok true ∧
  ∃ c, c ∈ checks (@verifyMessage Sample.codec Sample.crypto (Str Sample.signature)
                     (Str Sample.pub) Sample.message Sample.verified_once).2 ∧
    checked_signature c = Str Sample.signature ∧
    checked_publicKey c = Str Sample.pub ∧
    @verifySignature Sample.codec Sample.crypto (Str Sample.signature) (Str Sample.pub)
      (checked_data c) = Ok true.
Proof.
  split_and!; [exact verified_once_reachable | vm_compute; reflexivity |].
  destruct (@verifyMessage_true_is_backed Sample.codec Sample.crypto
              (Str Sample.signature) (Str Sample.pub) (Direct Sample.message)
              Sample.verified_once verified_once_reachable)
    as [(c & Hin & Hsig & Hpub & _ & Hok & _) _].
  - vm_compute; reflexivity.
  - exists c. split_and!; [exact Hin | exact Hsig | exact Hpub | exact Hok].
Defined.

Lemma cached_buffer_answers_true_witness :
  LRU.find (Str Sample.signature) (LRU.entries (verifiedCache Fixture.overwritten)) =
    Some {| cached_publicKey := Str Sample.pub; cached_data := Shared 0 |} ∧
  heap Fixture.overwritten !! 0 = Some (BufferObject Fixture.forged_bytes) ∧
  (@verifyMessage Sample.codec Sample.crypto (Str Sample.signature) (Str Sample.pub)
     (Shared 0) Fixture.overwritten).1 = Ok true ∧
  @verifySignature Sample.codec Sample.crypto (Str Sample.signature) (Str Sample.pub)
    (Buf Fixture.forged_bytes) = Ok false.
Proof.
  split_and!; [vm_compute; reflexivity | vm_compute; reflexivity | |
               vm_compute; reflexivity].
  apply (@cached_buffer_answers_true Sample.codec Sample.crypto (Str Sample.signature)
           (Str Sample.pub) 0 Fixture.forged_bytes Fixture.overwritten);
    vm_compute; reflexivity.
Defined.

Lemma cache_hit_buffer_against_string_throws_witness :
  @reachable Sample.codec Sample.crypto Sample.verified_once ∧
  LRU.find (Str Sample.signature) (LRU.entries (verifiedCache Sample.verified_once)) =
    Some {| cached_publicKey := Str Sample.pub;
            cached_data := Direct (Prim (Str "data data data")) |} ∧
  (∃ m, (@verifyMessage Sample.codec Sample.crypto (Str Sample.signature)
           (Str Sample.pub) (Direct (Buf Fixture.message_bytes))
           Sample.verified_once).1 = Throw (TypeError m)) ∧
  @verifySignature Sample.codec Sample.crypto (Str Sample.signature) (Str Sample.pub)
    (Buf (@utf8_encode Sample.codec "data data data")) = Ok true.
Proof.
  split_and!; [exact verified_once_reachable | vm_compute; reflexivity | |].
  - apply (@cache_hit_buffer_against_string_throws Sample.codec Sample.crypto
             (Str Sample.signature) (Str Sample.pub) "data data data"
             (Direct (Buf Fixture.message_bytes)) Fixture.message_bytes
             Sample.verified_once verified_once_reachable);
      [vm_compute; reflexivity | reflexivity].
  - vm_compute; reflexivity.
Defined.

Lemma cache_hit_rejects_other_spelling_witness :
  @reachable Sample.codec Sample.crypto Sample.verified_once ∧
  LRU.find (Str Sample.signature) (LRU.entries (verifiedCache Sample.verified_once)) =
    Some {| cached_publicKey := Str Sample.pub; cached_data := Sample.message |} ∧
  Str Fixture.pub_upper ≠ Str Sample.pub ∧ truthy (Str Fixture.pub_upper) = true ∧
  Buffer.from_hex (Str Fixture.pub_upper) = Buffer.from_hex (Str Sample.pub) ∧
  @verifySignature Sample.codec Sample.crypto (Str Sample.signature)
    (Str Fixture.pub_upper) Sample.message = Ok true ∧
  (@verifyMessage Sample.codec Sample.crypto (Str Sample.signature)
     (Str Fixture.pub_upper) Sample.message Sample.verified_once).1 = Ok false.
Proof.
  split_and!; [exact verified_once_reachable | vm_compute; reflexivity | discriminate
              | reflexivity | vm_compute; reflexivity |..].
  - vm_compute; reflexivity.
  - apply (@cache_hit_rejects_other_spelling Sample.codec Sample.crypto
             (Str Sample.signature) (Str Sample.pub) (Str Fixture.pub_upper)
             (Direct Sample.message) (Direct Sample.message)
             Sample.verified_once verified_once_reachable);
      [vm_compute; reflexivity | discriminate | reflexivity | vm_compute; reflexivity].
Defined.

Lemma failed_verification_is_rechecked_witness :
  LRU.find (Str Fixture.bad_signature) (LRU.entries (verifiedCache initial)) = None ∧
  @verifySignature Sample.codec Sample.crypto (Str Fixture.bad_signature)
    (Str Sample.pub) Sample.message ≠ Ok true ∧
  let first := @verifyMessage Sample.codec Sample.crypto (Str Fixture.bad_signature)
                 (Str Sample.pub) Sample.message initial in
  let second := @verifyMessage Sample.codec Sample.crypto (Str Fixture.bad_signature)
                  (Str Sample.pub) Sample.message first.2 in
  second.1 = first.1 ∧ verifiedCache second.2 = verifiedCache initial.
Proof.
  assert (Hfails : @verifySignature Sample.codec Sample.crypto
                     (Str Fixture.bad_signature) (Str Sample.pub) Sample.message
                   ≠ Ok true) by (vm_compute; discriminate).
  split; [reflexivity|]. split; [exact Hfails|]. intros first second.
  pose proof (@failed_verification_is_rechecked Sample.codec Sample.crypto
                (Str Fixture.bad_signature) (Str Sample.pub) (Direct Sample.message)
                initial eq_refl Hfails) as Hrun.
  cbv zeta in Hrun. destruct Hrun as (_ & Hsame & Hcache & _).
  split; [exact Hsame | exact Hcache].
Defined.

Lemma cache_hit_skips_guards_witness :
  @reachable Sample.codec Sample.crypto Sample.verified_once ∧
  LRU.find (Str Sample.signature) (LRU.entries (verifiedCache Sample.verified_once)) =
    Some {| cached_publicKey := Str Sample.pub; cached_data := Sample.message |} ∧
  truthy Undefined = false ∧
  (@verifyMessage Sample.codec Sample.crypto (Str Sample.signature) Undefined
     Sample.message Sample.verified_once).1 = Ok false ∧
  @verifySignature Sample.codec Sample.crypto (Str Sample.signature) Undefined
    Sample.message = Throw (Error "Given publicKey was undefined").
Proof.
  split_and!; [exact verified_once_reachable | vm_compute; reflexivity | reflexivity |..].
  - apply (@cache_hit_skips_guards Sample.codec Sample.crypto (Str Sample.signature)
             Undefined (Direct Sample.message) Sample.verified_once
             {| cached_publicKey := Str Sample.pub; cached_data := Sample.message |}
             verified_once_reachable);
      [vm_compute; reflexivity | reflexivity].
  - vm_compute; reflexivity.
Defined.

Lemma createKey_then_hasKey_witness :
  @StorageLaws ComposedStorage.storage ∧
  @createKey Sample.crypto ComposedStorage.storage (Str "userA") Sample.fresh =
    (Ok Sample.key, Sample.created) ∧
  (@hasKey Sample.crypto ComposedStorage.storage (Str "userA") Sample.created).1
    = Ok true ∧
  (@getKey Sample.crypto ComposedStorage.storage (Str "userA") Sample.created).1
    = (attempt key <- @unmarshal Sample.crypto (marshal Sample.key); Ok (Some key)).
Proof.
  split; [exact composed_storage_laws|]. split; [reflexivity|].
  apply (@createKey_then_hasKey Sample.crypto ComposedStorage.storage (Str "userA")
           Sample.fresh Sample.key Sample.created composed_storage_laws).
  reflexivity.
Defined.

Lemma lookups_only_read_witness :
  "userA" ≠ "" ∧
  ops (@getKey Sample.crypto ComposedStorage.storage (Str "userA") Sample.created).2 =
    (ops Sample.created ++ [Get "private_userA"])%list ∧
  console (@hasKey Sample.crypto Sample.broken (Str "userA") Sample.unreadable).2 =
    ["Error: ENOENT: no such file or directory"].
Proof.
  split; [discriminate|]. split.
  - apply (@lookups_only_read Sample.crypto ComposedStorage.storage "userA"
             Sample.created). discriminate.
  - apply (@lookups_only_read Sample.crypto Sample.broken "userA" Sample.unreadable).
    discriminate.
Defined.

Lemma record_that_does_not_load_witness :
  "userA" ≠ "" ∧
  (@storage_get Fixture.plain ("private_" ++ "userA") (storage Fixture.corrupt)).1
    = Ok (Bytes []) ∧
  @unmarshal Sample.crypto [] = Throw (LibraryError "Invalid private key") ∧
  (@getKey Sample.crypto Fixture.plain (Str "userA") Fixture.corrupt).1
    = Throw (LibraryError "Invalid private key") ∧
  (@hasKey Sample.crypto Fixture.plain (Str "userA") Fixture.corrupt).1 = Ok true.
Proof.
  split_and!; [discriminate | vm_compute; reflexivity | reflexivity |..].
  - apply (@record_that_does_not_load Sample.crypto Fixture.plain "userA"
             Fixture.corrupt [] (LibraryError "Invalid private key"));
      [discriminate | vm_compute; reflexivity | reflexivity].
  - apply (@record_that_does_not_load Sample.crypto Fixture.plain "userA"
             Fixture.corrupt [] (LibraryError "Invalid private key"));
      [discriminate | vm_compute; reflexivity | reflexivity].
Defined.

Lemma createKey_failures_witness :
  "userA" ≠ "" ∧
  (let after := @createKey Fixture.faulty_crypto Fixture.plain (Str "userA")
                  Fixture.empty_faulty in
   after.1 = Throw (LibraryError "Invalid record") ∧ ops after.2 = []) ∧
  (let after := @createKey Sample.crypto Fixture.read_only (Str "userA")
                  Fixture.empty_read_only in
   after.1 = Throw (LibraryError "EROFS: read-only file system") ∧
   ops after.2 = [Put "private_userA" (private_bytes Sample.key)]).
Proof.
  assert (Hid : "userA" ≠ "") by discriminate.
  split; [exact Hid|]. split.
  - intros after.
    pose proof (@createKey_failures Fixture.faulty_crypto Fixture.plain "userA"
                  Fixture.empty_faulty (LibraryError "Invalid record") Hid) as Hrun.
    cbv zeta in Hrun. destruct Hrun as [Hlib _].
    destruct (Hlib eq_refl) as (Hres & _ & Hops & _).
    split; [exact Hres | exact Hops].
  - intros after.
    pose proof (@createKey_failures Sample.crypto Fixture.read_only "userA"
                  Fixture.empty_read_only
                  (LibraryError "EROFS: read-only file system") Hid) as Hrun.
    cbv zeta in Hrun. destruct Hrun as [_ Hput].
    destruct (Hput Sample.key eq_refl eq_refl) as (Hres & Hops & _).
    split; [exact Hres | exact Hops].
Defined.

Lemma createKey_leaves_other_ids_witness :
  @StorageFrame Fixture.plain ∧ "userA" ≠ "" ∧ "userB" ≠ "" ∧ "userA" ≠ "userB" ∧
  (@getKey Sample.crypto Fixture.plain (Str "userB") Fixture.with_userB).1
    = Ok (Some Sample.key) ∧
  (@hasKey Sample.crypto Fixture.plain (Str "userB") Fixture.with_userB).1 = Ok true ∧
  let after := (@createKey Sample.crypto Fixture.plain (Str "userA")
                  Fixture.with_userB).2 in
  (@getKey Sample.crypto Fixture.plain (Str "userB") after).1 = Ok (Some Sample.key) ∧
  (@hasKey Sample.crypto Fixture.plain (Str "userB") after).1 = Ok true ∧
  (@getKey Sample.crypto Fixture.plain (Str "userA") after).1 =
    Ok (Some {| private_bytes := [x2a; x2a]; public_bytes := [x02; x2a; x2a] |}).
Proof.
  split_and!; [exact plain_storage_frame | discriminate | discriminate | discriminate
              | vm_compute; reflexivity | vm_compute; reflexivity |].
  intros after.
  pose proof (@createKey_leaves_other_ids Sample.crypto Fixture.plain "userA" "userB"
                Fixture.with_userB plain_storage_frame
                ltac:(discriminate) ltac:(discriminate) ltac:(discriminate)) as Hsame.
  cbv zeta in Hsame. destruct Hsame as [Hget Hhas]. subst after.
  split_and!.
  - rewrite Hget. vm_compute; reflexivity.
  - rewrite Hhas. vm_compute; reflexivity.
  - vm_compute; reflexivity.
Defined.

Lemma addKey_takes_an_absent_id_witness :
  @StorageLaws Fixture.plain ∧
  ((Undefined = Undefined ∧ "undefined" = "undefined") ∨
   (Undefined = Null ∧ "undefined" = "null")) ∧
  (@hasKey Sample.crypto Fixture.plain (Str "undefined")
     (@addKey Sample.crypto Fixture.plain Undefined
        {| publicKey := public_bytes Sample.key;
           privateKey := private_bytes Sample.key |} Fixture.empty_plain).2).1
    = Ok true.
Proof.
  split; [exact plain_storage_laws|]. split; [left; split; reflexivity|].
  apply (@addKey_takes_an_absent_id Sample.crypto Fixture.plain Undefined "undefined"
           {| publicKey := public_bytes Sample.key;
              privateKey := private_bytes Sample.key |}
           Fixture.empty_plain plain_storage_laws).
  left; split; reflexivity.
Defined.

Lemma hasKey_agrees_with_getKey_witness :
  "userA" ≠ "" ∧
  (@storage_get Fixture.blank ("private_" ++ "userA") (storage Fixture.over_blank)).1
    = Ok (Foreign false (Throw (LibraryError "Expected Uint8Array"))) ∧
  (@hasKey Sample.crypto Fixture.blank (Str "userA") Fixture.over_blank).1 = Ok true ∧
  (@getKey Sample.crypto Fixture.blank (Str "userA") Fixture.over_blank).1 = Ok None.
Proof.
  split; [discriminate|]. split; [reflexivity|].
  apply (@hasKey_agrees_with_getKey Sample.crypto Fixture.blank "userA"
           Fixture.over_blank ltac:(discriminate)).
  eexists. reflexivity.
Defined.

(** ** A cached buffer the caller writes to *)

(** The states reached without a write of the caller are reachable. *)
Lemma start_reachable (m : gmap loc object) :
  @reachable Sample.codec Sample.crypto (start m).
Proof.
  induction m as [|l o m Hl IH] using map_ind.
  - exact reachable_initial.
  - apply (reachable_caller (start m) _ IH). by apply caller_creates.
Qed.

(** C1 as stated fails: after the caller has written to a [Buffer] it
    passed, the cache holds under the signature a triple that never
    verified. The entry is there, the [Buffer] it points to holds bytes
    for which [verifySignature] answers [false], and no check on
    record was made on those bytes. *)
Lemma cached_buffer_overwritten :
  @reachable Sample.codec Sample.crypto Fixture.overwritten ∧
  (Str Sample.signature,
   {| cached_publicKey := Str Sample.pub; cached_data := Shared 0 |})
    ∈ LRU.entries (verifiedCache Fixture.overwritten) ∧
  view (heap Fixture.overwritten) (Shared 0) = Buf Fixture.forged_bytes ∧
  @verifySignature Sample.codec Sample.crypto (Str Sample.signature) (Str Sample.pub)
    (Buf Fixture.forged_bytes) = Ok false ∧
  ∀ c, c ∈ checks Fixture.overwritten → checked_data c ≠ Buf Fixture.forged_bytes.
Proof.
  split_and!.
  - exact overwritten_reachable.
  - assert (LRU.entries (verifiedCache Fixture.overwritten) =
            [(Str Sample.signature,
              {| cached_publicKey := Str Sample.pub; cached_data := Shared 0 |})])
      as -> by (vm_compute; reflexivity).
    left.
  - vm_compute; reflexivity.
  - vm_compute; reflexivity.
  - assert (checks Fixture.overwritten =
            [ {| checked_signature := Str Sample.signature;
                 checked_publicKey := Str Sample.pub;
                 checked_argument := Shared 0;
                 checked_data := Buf Fixture.message_bytes;
                 outcome := Ok true |} ])
      as -> by (vm_compute; reflexivity).
    intros c ->%list_elem_of_singleton. vm_compute. discriminate.
Qed.
